(** * CPU scheduling simulator (Project1/main.go)

    A shallow embedding of the four schedulers of [Project1/main.go]
    ([FCFSSchedule], [SJFPrioritySchedule], [SJFSchedule], [RRSchedule])
    together with the properties that the design document states about
    them.  The source file holds the program followed by an earlier draft
    of it; the embedding is of the program itself, its first text.

    Conventions of the embedding:
    - [int64] values are integers of [Z]; every arithmetic operation of the
      source is followed by the two's complement wrap-around [wrap64];
    - [float64] values are the binary64 floats of the kernel ([PrimFloat]);
      the conversion [float64(x)] of an [int64] rounds to nearest even;
    - slices are lists; reading or writing a slice outside of its bounds
      makes the Go program panic, which is the outcome [Panic];
    - the three unbounded [for] loops take an iteration budget, and a loop
      that exhausts it has the outcome [OutOfFuel];
    - a scheduler does not return a value in the source: it hands the Gantt
      chart, the table rows and the three averages to [outputGantt] and
      [outputSchedule].  The embedding returns exactly these arguments;
    - [outputGantt] returns the text that it writes; [strconv.ParseInt] and
      [fmt.Sprint], which belong to the Go library, are parameters of
      [loadProcesses] and [outputGantt]; [loadProcesses] takes the records
      that the CSV reader returns. *)

From Stdlib Require Import ZArith List Lia Floats.
From Stdlib Require String Ascii DecimalString.
From stdpp Require Import base list.
Import ListNotations String.StringSyntax.
Delimit Scope string_scope with string.
Local Open Scope Z_scope.

(** ** Machine numbers *)

Module Int64.

Definition min_int : Z := - 2 ^ 63.
Definition max_int : Z := 2 ^ 63 - 1.

Definition in_range (z : Z) : Prop := min_int <= z <= max_int.

(** Two's complement reduction to 64 bits. *)
Definition wrap64 (z : Z) : Z := (z + 2 ^ 63) mod 2 ^ 64 - 2 ^ 63.

Definition add (a b : Z) : Z := wrap64 (a + b).
Definition sub (a b : Z) : Z := wrap64 (a - b).

End Int64.

(** [float64(x)] for an integer [x]: the nearest binary64 number. *)
Definition float64 (z : Z) : float :=
  SF2Prim (binary_normalize prec emax z 0 false).

(** ** Outcomes of a run *)

Inductive Run (A : Type) : Type :=
| Done (a : A)
| Panic
| OutOfFuel.

Arguments Done {A} a.
Arguments Panic {A}.
Arguments OutOfFuel {A}.

Definition bind {A B : Type} (r : Run A) (k : A -> Run B) : Run B :=
  match r with
  | Done a => k a
  | Panic => Panic
  | OutOfFuel => OutOfFuel
  end.

Definition Run_map {A B : Type} (f : A -> B) (r : Run A) : Run B :=
  bind r (fun a => Done (f a)).

Notation "'let*' x ':=' e 'in' k" := (bind e (fun x => k))
  (at level 10, x name, e at level 200, k at level 200, only parsing).

(** ** Slices *)

(** [l[i]] as an expression. *)
Definition load {A : Type} (l : list A) (i : Z) : Run A :=
  if i <? 0 then Panic
  else match l !! Z.to_nat i with
       | Some a => Done a
       | None => Panic
       end.

(** [l[i] = a]. *)
Definition store {A : Type} (l : list A) (i : Z) (a : A) : Run (list A) :=
  if (0 <=? i) && (i <? Z.of_nat (length l))
  then Done (<[Z.to_nat i := a]> l)
  else Panic.

(** The indices [i, i+1, ..., i+n-1]. *)
Fixpoint upto (i : Z) (n : nat) : list Z :=
  match n with
  | O => []
  | S n' => i :: upto (i + 1) n'
  end.

(** The indices visited by [for i := range l]. *)
Definition range {A : Type} (l : list A) : list Z := upto 0 (length l).

(** [for i := range ... { body }] over a state [St]. *)
Fixpoint for_range {St : Type} (idx : list Z) (body : Z -> St -> Run St) (s : St)
  : Run St :=
  match idx with
  | [] => Done s
  | i :: idx' => let* s' := body i s in for_range idx' body s'
  end.

(** [for cond { body }], cut off after [fuel] iterations. *)
Fixpoint while {St : Type} (fuel : nat) (cond : St -> bool)
  (body : St -> Run St) (s : St) : Run St :=
  if cond s then
    match fuel with
    | O => OutOfFuel
    | S fuel' => let* s' := body s in while fuel' cond body s'
    end
  else Done s.

(** ** Data model *)

Record Process : Type := mkProcess {
  ProcessID : Z;
  ArrivalTime : Z;
  BurstDuration : Z;
  Priority : Z
}.

Record TimeSlice : Type := mkTimeSlice {
  PID : Z;
  Start : Z;
  Stop : Z
}.

(** One row of the schedule table.  The source stores the decimal rendering
    ([fmt.Sprint]) of seven numbers, in the order of the table header
    ["ID", "Priority", "Burst", "Arrival", "Wait", "Turnaround", "Exit"];
    the embedding keeps the numbers. *)
Record ScheduleRow : Type := mkRow {
  rowID : Z;
  rowPriority : Z;
  rowBurst : Z;
  rowArrival : Z;
  rowWait : Z;
  rowTurnaround : Z;
  rowExit : Z
}.

(** The [var ( ... )] block that opens each scheduler.  A slot of [schedule]
    is [None] as long as the source has not assigned it (a nil row). *)
Record Vars : Type := mkVars {
  serviceTime : Z;
  totalWait : float;
  totalTurnaround : float;
  lastCompletion : float;
  waitingTime : Z;
  schedule : list (option ScheduleRow);
  gantt : list TimeSlice
}.

Definition init_vars (processes : list Process) : Vars :=
  {| serviceTime := 0;
     totalWait := 0%float;
     totalTurnaround := 0%float;
     lastCompletion := 0%float;
     waitingTime := 0;
     schedule := replicate (length processes) None;
     gantt := [] |}.

(** What a scheduler passes to [outputGantt] and [outputSchedule]. *)
Record Output : Type := mkOutput {
  out_gantt : list TimeSlice;
  out_schedule : list (option ScheduleRow);
  out_aveWait : float;
  out_aveTurnaround : float;
  out_aveThroughput : float
}.

(** The closing block of each scheduler:
    [count := float64(len(processes))] and the three quotients. *)
Definition report (processes : list Process) (v : Vars) : Output :=
  let count := float64 (Z.of_nat (length processes)) in
  {| out_gantt := gantt v;
     out_schedule := schedule v;
     out_aveWait := PrimFloat.div (totalWait v) count;
     out_aveTurnaround := PrimFloat.div (totalTurnaround v) count;
     out_aveThroughput := PrimFloat.div count (lastCompletion v) |}.

Definition getBurstDurations (processes : list Process) : list Z :=
  map BurstDuration processes.

(** ** First-come, first-serve *)

(** The body of the loop of [FCFSSchedule] for index [i]. *)
Definition FCFS_body (processes : list Process) (i : Z) (v : Vars)
  : Run Vars :=
  let* p := load processes i in
  let waitingTime' :=
    if 0 <? ArrivalTime p
    then Int64.sub (serviceTime v) (ArrivalTime p)
    else waitingTime v in
  let totalWait' := PrimFloat.add (totalWait v) (float64 waitingTime') in
  let start := Int64.add waitingTime' (ArrivalTime p) in
  let turnaround := Int64.add (BurstDuration p) waitingTime' in
  let totalTurnaround' :=
    PrimFloat.add (totalTurnaround v) (float64 turnaround) in
  let completion :=
    Int64.add (Int64.add (BurstDuration p) (ArrivalTime p)) waitingTime' in
  let lastCompletion' := float64 completion in
  let* schedule' := store (schedule v) i
    (Some {| rowID := ProcessID p;
             rowPriority := Priority p;
             rowBurst := BurstDuration p;
             rowArrival := ArrivalTime p;
             rowWait := waitingTime';
             rowTurnaround := turnaround;
             rowExit := completion |}) in
  let serviceTime' := Int64.add (serviceTime v) (BurstDuration p) in
  Done {| serviceTime := serviceTime';
          totalWait := totalWait';
          totalTurnaround := totalTurnaround';
          lastCompletion := lastCompletion';
          waitingTime := waitingTime';
          schedule := schedule';
          gantt := gantt v ++ [ {| PID := ProcessID p;
                                   Start := start;
                                   Stop := serviceTime' |} ] |}.

Definition FCFS_run (processes : list Process) : Run Vars :=
  for_range (range processes) (FCFS_body processes) (init_vars processes).

Definition FCFSSchedule (processes : list Process) : Run Output :=
  Run_map (report processes) (FCFS_run processes).

(** ** The state of the three simulation loops *)

Record Loop : Type := mkLoop {
  vars : Vars;
  remainingBurst : list Z;
  completion : Z
}.

Definition init_loop (processes : list Process) : Loop :=
  {| vars := init_vars processes;
     remainingBurst := getBurstDurations processes;
     completion := 0 |}.

(** The guard [completion < int64(len(processes))] of the three loops. *)
Definition loop_guard (processes : list Process) (s : Loop) : bool :=
  completion s <? Z.of_nat (length processes).

(** ** Shortest-job-first *)

(** One turn of the inner loop of [SJFSchedule] ([for i, p := range
    processes]), which keeps the candidate index in [nextProcess]. *)
Definition SJF_pick (processes : list Process) (remaining : list Z)
  (now : Z) (i : Z) (nextProcess : Z) : Run Z :=
  let* p := load processes i in
  let* r := load remaining i in
  if (0 <? r) && (ArrivalTime p <=? now) then
    if nextProcess =? -1 then Done i
    else
      let* rn := load remaining nextProcess in
      if r <? rn then Done i else Done nextProcess
  else Done nextProcess.

(** The body of the outer loop of [SJFSchedule]. *)
Definition SJF_iter (processes : list Process) (s : Loop) : Run Loop :=
  let v := vars s in
  let* nextProcess :=
    for_range (range processes)
      (SJF_pick processes (remainingBurst s) (completion s)) (-1) in
  if nextProcess =? -1 then
    Done {| vars := v;
            remainingBurst := remainingBurst s;
            completion := Int64.add (completion s) 1 |}
  else
    let start := completion s in
    let serviceTime' := Int64.add (serviceTime v) 1 in
    let* r := load (remainingBurst s) nextProcess in
    let* remaining' := store (remainingBurst s) nextProcess (Int64.sub r 1) in
    let* r' := load remaining' nextProcess in
    if r' =? 0 then
      let* p := load processes nextProcess in
      let turnaround :=
        Int64.add (Int64.sub (completion s) (ArrivalTime p)) 1 in
      let totalTurnaround' :=
        PrimFloat.add (totalTurnaround v) (float64 turnaround) in
      let waitingTime' := Int64.sub turnaround (BurstDuration p) in
      let totalWait' := PrimFloat.add (totalWait v) (float64 waitingTime') in
      let lastCompletion' := PrimFloat.add (float64 (completion s)) 1%float in
      let* schedule' := store (schedule v) nextProcess
        (Some {| rowID := ProcessID p;
                 rowPriority := Priority p;
                 rowBurst := BurstDuration p;
                 rowArrival := ArrivalTime p;
                 rowWait := waitingTime';
                 rowTurnaround := turnaround;
                 rowExit := Int64.add (completion s) (BurstDuration p) |}) in
      let completion' := Int64.add (completion s) (BurstDuration p) in
      Done {| vars := {| serviceTime := serviceTime';
                         totalWait := totalWait';
                         totalTurnaround := totalTurnaround';
                         lastCompletion := lastCompletion';
                         waitingTime := waitingTime';
                         schedule := schedule';
                         gantt := gantt v ++ [ {| PID := ProcessID p;
                                                  Start := start;
                                                  Stop := completion' |} ] |};
              remainingBurst := remaining';
              completion := completion' |}
    else
      Done {| vars := {| serviceTime := serviceTime';
                         totalWait := totalWait v;
                         totalTurnaround := totalTurnaround v;
                         lastCompletion := lastCompletion v;
                         waitingTime := waitingTime v;
                         schedule := schedule v;
                         gantt := gantt v |};
              remainingBurst := remaining';
              completion := completion s |}.

Definition SJF_run (fuel : nat) (processes : list Process) : Run Loop :=
  while fuel (loop_guard processes) (SJF_iter processes)
    (init_loop processes).

Definition SJFSchedule (fuel : nat) (processes : list Process) : Run Output :=
  Run_map (fun s => report processes (vars s)) (SJF_run fuel processes).

(** ** Priority *)

(** One turn of the inner loop of [SJFPrioritySchedule]. *)
Definition Priority_pick (processes : list Process) (remaining : list Z)
  (now : Z) (i : Z) (nextProcess : Z) : Run Z :=
  let* p := load processes i in
  let* r := load remaining i in
  if (0 <? r) && (ArrivalTime p <=? now) then
    if nextProcess =? -1 then Done i
    else
      let* rn := load remaining nextProcess in
      if r <? rn then Done i else Done nextProcess
  else Done nextProcess.

(** The body of the outer loop of [SJFPrioritySchedule]. *)
Definition Priority_iter (processes : list Process) (s : Loop) : Run Loop :=
  let v := vars s in
  let* nextProcess :=
    for_range (range processes)
      (Priority_pick processes (remainingBurst s) (completion s)) (-1) in
  if nextProcess =? -1 then
    Done {| vars := v;
            remainingBurst := remainingBurst s;
            completion := Int64.add (completion s) 1 |}
  else
    let start := completion s in
    let serviceTime' := Int64.add (serviceTime v) 1 in
    let* r := load (remainingBurst s) nextProcess in
    let* remaining' := store (remainingBurst s) nextProcess (Int64.sub r 1) in
    let* r' := load remaining' nextProcess in
    if r' =? 0 then
      let* p := load processes nextProcess in
      let turnaround :=
        Int64.add (Int64.sub (completion s) (ArrivalTime p)) 1 in
      let totalTurnaround' :=
        PrimFloat.add (totalTurnaround v) (float64 turnaround) in
      let waitingTime' := Int64.sub turnaround (BurstDuration p) in
      let totalWait' := PrimFloat.add (totalWait v) (float64 waitingTime') in
      let lastCompletion' := PrimFloat.add (float64 (completion s)) 1%float in
      let* schedule' := store (schedule v) nextProcess
        (Some {| rowID := ProcessID p;
                 rowPriority := Priority p;
                 rowBurst := BurstDuration p;
                 rowArrival := ArrivalTime p;
                 rowWait := waitingTime';
                 rowTurnaround := turnaround;
                 rowExit := Int64.add (completion s) (BurstDuration p) |}) in
      let completion' := Int64.add (completion s) (BurstDuration p) in
      Done {| vars := {| serviceTime := serviceTime';
                         totalWait := totalWait';
                         totalTurnaround := totalTurnaround';
                         lastCompletion := lastCompletion';
                         waitingTime := waitingTime';
                         schedule := schedule';
                         gantt := gantt v ++ [ {| PID := ProcessID p;
                                                  Start := start;
                                                  Stop := completion' |} ] |};
              remainingBurst := remaining';
              completion := completion' |}
    else
      Done {| vars := {| serviceTime := serviceTime';
                         totalWait := totalWait v;
                         totalTurnaround := totalTurnaround v;
                         lastCompletion := lastCompletion v;
                         waitingTime := waitingTime v;
                         schedule := schedule v;
                         gantt := gantt v |};
              remainingBurst := remaining';
              completion := completion s |}.

Definition Priority_run (fuel : nat) (processes : list Process) : Run Loop :=
  while fuel (loop_guard processes) (Priority_iter processes)
    (init_loop processes).

Definition SJFPrioritySchedule (fuel : nat) (processes : list Process)
  : Run Output :=
  Run_map (fun s => report processes (vars s)) (Priority_run fuel processes).

(** ** Round-robin *)

(** [quantum := int64(2)]. *)
Definition quantum : Z := 2.

(** The body of the inner loop of [RRSchedule] for index [i]. *)
Definition RR_visit (processes : list Process) (i : Z) (s : Loop)
  : Run Loop :=
  let v := vars s in
  let* r := load (remainingBurst s) i in
  let* p := load processes i in
  if (0 <? r) && (ArrivalTime p <=? completion s) then
    let start := completion s in
    let serviceTime' := Int64.add (serviceTime v) 1 in
    if r <=? quantum then
      let waitingTime' := Int64.sub (completion s) (ArrivalTime p) in
      let turnaround := Int64.add waitingTime' r in
      let totalWait' := PrimFloat.add (totalWait v) (float64 waitingTime') in
      let totalTurnaround' :=
        PrimFloat.add (totalTurnaround v) (float64 turnaround) in
      let lastCompletion' :=
        PrimFloat.add (float64 (completion s)) (float64 r) in
      let* schedule' := store (schedule v) i
        (Some {| rowID := ProcessID p;
                 rowPriority := Priority p;
                 rowBurst := BurstDuration p;
                 rowArrival := ArrivalTime p;
                 rowWait := waitingTime';
                 rowTurnaround := turnaround;
                 rowExit := Int64.add (completion s) r |}) in
      let completion' := Int64.add (completion s) (BurstDuration p) in
      let gantt' := gantt v ++ [ {| PID := ProcessID p;
                                    Start := start;
                                    Stop := completion' |} ] in
      let* remaining' := store (remainingBurst s) i 0 in
      Done {| vars := {| serviceTime := serviceTime';
                         totalWait := totalWait';
                         totalTurnaround := totalTurnaround';
                         lastCompletion := lastCompletion';
                         waitingTime := waitingTime';
                         schedule := schedule';
                         gantt := gantt' |};
              remainingBurst := remaining';
              completion := completion' |}
    else
      let waitingTime' := Int64.sub (completion s) (ArrivalTime p) in
      let turnaround := Int64.add waitingTime' quantum in
      let totalWait' := PrimFloat.add (totalWait v) (float64 waitingTime') in
      let totalTurnaround' :=
        PrimFloat.add (totalTurnaround v) (float64 turnaround) in
      let lastCompletion' :=
        PrimFloat.add (float64 (completion s)) (float64 quantum) in
      let* schedule' := store (schedule v) i
        (Some {| rowID := ProcessID p;
                 rowPriority := Priority p;
                 rowBurst := BurstDuration p;
                 rowArrival := ArrivalTime p;
                 rowWait := waitingTime';
                 rowTurnaround := turnaround;
                 rowExit := Int64.add (completion s) quantum |}) in
      let completion' := Int64.add (completion s) quantum in
      let gantt' := gantt v ++ [ {| PID := ProcessID p;
                                    Start := start;
                                    Stop := completion' |} ] in
      let* r0 := load (remainingBurst s) i in
      let* remaining' := store (remainingBurst s) i (Int64.sub r0 quantum) in
      Done {| vars := {| serviceTime := serviceTime';
                         totalWait := totalWait';
                         totalTurnaround := totalTurnaround';
                         lastCompletion := lastCompletion';
                         waitingTime := waitingTime';
                         schedule := schedule';
                         gantt := gantt' |};
              remainingBurst := remaining';
              completion := completion' |}
  else Done s.

(** The body of the outer loop of [RRSchedule]: one pass over the
    processes. *)
Definition RR_iter (processes : list Process) (s : Loop) : Run Loop :=
  for_range (range processes) (RR_visit processes) s.

Definition RR_run (fuel : nat) (processes : list Process) : Run Loop :=
  while fuel (loop_guard processes) (RR_iter processes)
    (init_loop processes).

Definition RRSchedule (fuel : nat) (processes : list Process) : Run Output :=
  Run_map (fun s => report processes (vars s)) (RR_run fuel processes).

(** ** Vocabulary of the design document *)

(** A process set is valid when it is not empty, every burst is positive,
    no arrival time is negative, and the ids are positive and pairwise
    distinct.  The source has no such check; the predicate states which
    inputs the design document speaks of. *)
Fixpoint distinct (ids : list Z) : bool :=
  match ids with
  | [] => true
  | x :: rest => negb (existsb (Z.eqb x) rest) && distinct rest
  end.

Definition valid_process (p : Process) : bool :=
  (0 <? ProcessID p) && (0 <=? ArrivalTime p) && (0 <? BurstDuration p).

Definition valid_process_set (processes : list Process) : bool :=
  negb (Nat.eqb (length processes) 0)
  && forallb valid_process processes
  && distinct (map ProcessID processes).

(** The waiting times that the design document prescribes for
    first-come, first-serve: [max(0, serviceTimeSoFar - arrivalTime)],
    where [serviceTimeSoFar] adds up the bursts of the processes listed
    before. *)
Fixpoint documented_FCFS_waits (serviceTimeSoFar : Z)
  (processes : list Process) : list Z :=
  match processes with
  | [] => []
  | p :: rest =>
      Z.max 0 (serviceTimeSoFar - ArrivalTime p)
      :: documented_FCFS_waits (serviceTimeSoFar + BurstDuration p) rest
  end.

(** The index that a priority scheduler has to choose: among the processes
    with work left that have arrived, the first one of least [Priority]
    value. *)
Fixpoint documented_priority_choice (i : Z) (processes : list Process)
  (remaining : list Z) (now : Z) (best : option (Z * Z)) : option Z :=
  match processes, remaining with
  | p :: ps, r :: rs =>
      let best' :=
        if (0 <? r) && (ArrivalTime p <=? now) then
          match best with
          | None => Some (i, Priority p)
          | Some (_, k) => if Priority p <? k then Some (i, Priority p)
                           else best
          end
        else best in
      documented_priority_choice (i + 1) ps rs now best'
  | _, _ => option_map fst best
  end.

(** The number of slices that round-robin needs for one process:
    [ceil(burst / quantum)]. *)
Definition documented_slice_count (burst : Z) : Z :=
  (burst + quantum - 1) / quantum.

(** Two time slices share some instant of time. *)
Definition overlaps (a b : TimeSlice) : bool :=
  (Start a <? Stop b) && (Start b <? Stop a).

(** The three derived-quantity equations of a table row. *)
Definition turnaround_is_exit_minus_arrival (r : ScheduleRow) : bool :=
  rowTurnaround r =? rowExit r - rowArrival r.

Definition wait_is_turnaround_minus_burst (r : ScheduleRow) : bool :=
  rowWait r =? rowTurnaround r - rowBurst r.

Definition wait_is_not_negative (r : ScheduleRow) : bool :=
  0 <=? rowWait r.

(** Columns of the table and of the Gantt chart. *)
Definition waits (out : Output) : list (option Z) :=
  map (option_map rowWait) (out_schedule out).

Definition starts (out : Output) : list Z := map Start (out_gantt out).

(** Which rows of the table have been written. *)
Definition written (rows : list (option ScheduleRow)) : list bool :=
  map (fun r => match r with Some _ => true | None => false end) rows.


(** The same loop when every process arrives at time 0: [waitingTime] is
    still 0 and the rows written so far all carry the wait 0. *)
Definition FCFS_zero_invariant (processes : list Process) (k : nat)
  (v : Vars) : Prop :=
  waitingTime v = 0 /\
  map (option_map rowWait) (schedule v)
  = replicate k (Some 0) ++ replicate (length processes - k) None.

(** ** Inputs used below *)

(** Three processes that arrive together: bursts 24, 3 and 3. *)
Definition three_at_zero : list Process :=
  [ {| ProcessID := 1; ArrivalTime := 0; BurstDuration := 24; Priority := 0 |};
    {| ProcessID := 2; ArrivalTime := 0; BurstDuration := 3; Priority := 0 |};
    {| ProcessID := 3; ArrivalTime := 0; BurstDuration := 3; Priority := 0 |} ].

(** The second process arrives while the processor would be idle; the third
    one has been there from the start. *)
Definition late_arrival : list Process :=
  [ {| ProcessID := 1; ArrivalTime := 0; BurstDuration := 5; Priority := 0 |};
    {| ProcessID := 2; ArrivalTime := 9; BurstDuration := 3; Priority := 0 |};
    {| ProcessID := 3; ArrivalTime := 0; BurstDuration := 2; Priority := 0 |} ].

(** The process listed first arrives after the one listed second. *)
Definition listed_before_arrival : list Process :=
  [ {| ProcessID := 1; ArrivalTime := 1; BurstDuration := 5; Priority := 0 |};
    {| ProcessID := 2; ArrivalTime := 0; BurstDuration := 3; Priority := 0 |} ].

(** The shorter process has the larger priority value. *)
Definition short_but_unimportant : list Process :=
  [ {| ProcessID := 1; ArrivalTime := 0; BurstDuration := 1; Priority := 2 |};
    {| ProcessID := 2; ArrivalTime := 0; BurstDuration := 2; Priority := 1 |} ].

(** One process of burst [burst] present from the start. *)
Definition alone (id burst priority : Z) : list Process :=
  [ {| ProcessID := id; ArrivalTime := 0; BurstDuration := burst;
       Priority := priority |} ].

(** One process that is not there at time 0. *)
Definition not_yet_there : list Process :=
  [ {| ProcessID := 1; ArrivalTime := 5; BurstDuration := 2; Priority := 0 |} ].



(** ** Vocabulary of the loop invariants *)

(** The work that is left: the sum of the positive remaining bursts. *)
Fixpoint work_left (remaining : list Z) : Z :=
  match remaining with
  | [] => 0
  | r :: rest => Z.max 0 r + work_left rest
  end.

(** Process [j] can be chosen at time [now]: it has work left and it has
    arrived. *)
Definition eligible (processes : list Process) (remaining : list Z)
  (now : Z) (j : nat) : Prop :=
  exists (p : Process) (r : Z),
    processes !! j = Some p /\ remaining !! j = Some r /\
    0 < r /\ ArrivalTime p <= now.

(** What the inner loop of [SJFSchedule] holds in [nextProcess] once the
    indices below [k] have been seen: [-1] when none of them is eligible,
    and otherwise the eligible index of least remaining burst, the earliest
    one among equals. *)
Definition shortest_so_far (processes : list Process) (remaining : list Z)
  (now : Z) (k : nat) (nextProcess : Z) : Prop :=
  (nextProcess = -1 /\
   forall j : nat, (j < k)%nat -> ~ eligible processes remaining now j) \/
  (exists (n : nat) (rn : Z),
      nextProcess = Z.of_nat n /\ (n < k)%nat /\
      eligible processes remaining now n /\
      remaining !! n = Some rn /\
      forall (j : nat) (rj : Z),
        (j < k)%nat -> eligible processes remaining now j ->
        remaining !! j = Some rj ->
        rn <= rj /\ ((j < n)%nat -> rn < rj)).

(** A chart that a single processor can follow from time [t] on: every
    slice has a positive length and starts no earlier than the slice
    before it stops. *)
Fixpoint ordered_from (t : Z) (chart : list TimeSlice) : Prop :=
  match chart with
  | [] => True
  | a :: rest => t <= Start a /\ Start a < Stop a /\ ordered_from (Stop a) rest
  end.

(** The time at which the last slice of a chart stops ([t] when there is
    none). *)
Fixpoint last_stop (t : Z) (chart : list TimeSlice) : Z :=
  match chart with
  | [] => t
  | a :: rest => last_stop (Stop a) rest
  end.

(** A slice that runs some listed process, not before its arrival, for the
    length of its whole burst. *)
Definition runs_whole_burst (processes : list Process) (a : TimeSlice)
  : Prop :=
  exists p : Process,
    In p processes /\ PID a = ProcessID p /\
    ArrivalTime p <= Start a /\ Stop a = Start a + BurstDuration p.

(** The clock arithmetic of the non-preemptive loops stays inside [int64]:
    the number of processes, and that number plus any burst, is at most the
    greatest [int64]. *)
Definition bursts_fit (processes : list Process) : Prop :=
  Z.of_nat (length processes) <= Int64.max_int /\
  forall p : Process,
    In p processes ->
    Z.of_nat (length processes) + BurstDuration p <= Int64.max_int.

(** The invariant of the loop of [SJFSchedule] and [SJFPrioritySchedule]. *)
Definition SJF_invariant (processes : list Process) (s : Loop) : Prop :=
  length (remainingBurst s) = length processes /\
  length (schedule (vars s)) = length processes /\
  0 <= completion s /\
  (forall (j : nat) (p : Process) (r : Z),
      processes !! j = Some p -> remainingBurst s !! j = Some r ->
      r <= BurstDuration p) /\
  ordered_from 0 (gantt (vars s)) /\
  last_stop 0 (gantt (vars s)) <= completion s /\
  Forall (runs_whole_burst processes) (gantt (vars s)).

(** The iterations that the loop of [SJFSchedule] can still make: the work
    that is left plus the distance of the clock from the process count. *)
Definition SJF_measure (processes : list Process) (s : Loop) : nat :=
  (Z.to_nat (work_left (remainingBurst s))
   + Z.to_nat (Z.of_nat (length processes) - completion s))%nat.


(** The two working slices of a simulation loop have one slot for each
    process. *)
Definition tables_sized (processes : list Process) (s : Loop) : Prop :=
  length (remainingBurst s) = length processes /\
  length (schedule (vars s)) = length processes.

(** The first four columns of a row are those of the process. *)
Definition row_describes (p : Process) (row : ScheduleRow) : Prop :=
  rowID row = ProcessID p /\ rowPriority row = Priority p /\
  rowBurst row = BurstDuration p /\ rowArrival row = ArrivalTime p.

(** Every written row of a table stands at the index of its process and is
    related to it by [R]. *)
Definition rows_satisfy (processes : list Process)
  (R : Process -> ScheduleRow -> Prop) (rows : list (option ScheduleRow))
  : Prop :=
  forall (j : nat) (row : ScheduleRow),
    rows !! j = Some (Some row) ->
    exists p : Process, processes !! j = Some p /\ R p row.

(** The rows of [SJFSchedule]: the wait is the turnaround less the burst,
    and the turnaround is what the exit column implies less [burst - 1]. *)
Definition SJF_row (p : Process) (row : ScheduleRow) : Prop :=
  row_describes p row /\
  rowTurnaround row = rowExit row - rowArrival row - (rowBurst row - 1) /\
  rowWait row = rowTurnaround row - rowBurst row.

(** The rows of [RRSchedule]: the turnaround is the exit less the arrival,
    as [int64] arithmetic computes it. *)
Definition RR_row (p : Process) (row : ScheduleRow) : Prop :=
  row_describes p row /\
  rowTurnaround row = Int64.sub (rowExit row) (rowArrival row).

(** The rows of [FCFSSchedule]: both derived columns agree with the exit
    column, as [int64] arithmetic computes them. *)
Definition FCFS_row (p : Process) (row : ScheduleRow) : Prop :=
  row_describes p row /\
  rowTurnaround row = Int64.sub (rowExit row) (rowArrival row) /\
  rowWait row = Int64.sub (rowTurnaround row) (rowBurst row).

(** The second of two processes arrives when the clock has reached the
    process count. *)
Definition one_comes_late : list Process :=
  [ {| ProcessID := 1; ArrivalTime := 0; BurstDuration := 1; Priority := 0 |};
    {| ProcessID := 2; ArrivalTime := 2; BurstDuration := 1; Priority := 0 |} ].

(** [serviceTime] once the first [k] processes have been served: the
    [int64] sum of their bursts. *)
Definition served (processes : list Process) (k : nat) : Z :=
  fold_left Int64.add (map BurstDuration (take k processes)) 0.

(** What the loop of [FCFSSchedule] has built after [k] turns. *)
Definition FCFS_progress (processes : list Process) (k : nat) (v : Vars)
  : Prop :=
  length (schedule v) = length processes /\
  length (gantt v) = k /\
  serviceTime v = served processes k /\
  Int64.in_range (serviceTime v) /\
  Int64.in_range (waitingTime v) /\
  rows_satisfy processes FCFS_row (schedule v) /\
  map PID (gantt v) = map ProcessID (take k processes) /\
  map Stop (gantt v) = map (served processes) (seq 1 k).

(** The same when every process arrives after time 0: each slice starts
    when the one before it stops, and the exit column of the table is the
    stop column of the chart. *)
Definition FCFS_gap_free (processes : list Process) (k : nat) (v : Vars)
  : Prop :=
  FCFS_progress processes k v /\
  map Start (gantt v) = map (served processes) (seq 0 k) /\
  map (option_map rowExit) (schedule v)
  = map (fun a => Some (Stop a)) (gantt v)
    ++ replicate (length processes - k) None.

(** Two processes that both arrive after time 0. *)
Definition all_after_zero : list Process :=
  [ {| ProcessID := 1; ArrivalTime := 1; BurstDuration := 5; Priority := 0 |};
    {| ProcessID := 2; ArrivalTime := 3; BurstDuration := 2; Priority := 0 |} ].

(** The longest that one pass of the round-robin loop can take: for each
    process a quantum or its whole burst, whichever is greater. *)
Fixpoint longest_pass (processes : list Process) : Z :=
  match processes with
  | [] => 0
  | p :: rest => Z.max quantum (BurstDuration p) + longest_pass rest
  end.

(** The clock of the round-robin loop stays inside [int64]. *)
Definition pass_fits (processes : list Process) : Prop :=
  Z.of_nat (length processes) + longest_pass processes <= Int64.max_int.

(** A slice of round-robin: it runs a listed process, not before its
    arrival, for one quantum or for the length of its whole burst. *)
Definition RR_slice (processes : list Process) (a : TimeSlice) : Prop :=
  exists p : Process,
    In p processes /\ PID a = ProcessID p /\ ArrivalTime p <= Start a /\
    (Stop a = Start a + quantum \/ Stop a = Start a + BurstDuration p).

(** The invariant of the outer loop of [RRSchedule]. *)
Definition RR_invariant (processes : list Process) (s : Loop) : Prop :=
  tables_sized processes s /\
  0 <= completion s /\
  (forall (j : nat) (p : Process) (r : Z),
      processes !! j = Some p -> remainingBurst s !! j = Some r ->
      r <= BurstDuration p) /\
  ordered_from 0 (gantt (vars s)) /\
  last_stop 0 (gantt (vars s)) <= completion s /\
  Forall (RR_slice processes) (gantt (vars s)).

(** The invariant of a pass, once the indices below [k] have been
    visited. *)
Definition RR_pass_invariant (processes : list Process) (k : nat) (s : Loop)
  : Prop :=
  RR_invariant processes s /\
  completion s
  <= Z.of_nat (length processes) + longest_pass (take k processes).




(** ** Loading the processes *)

(** The outcomes of [loadProcesses]: it returns the processes, it returns
    the error of the CSV reader, it leaves the program through
    [os.Exit(1)] in [mustStrToInt], or it panics on a field index that is
    out of range. *)
Inductive Load (A : Type) : Type :=
| Returned (a : A)
| ReadError
| Exited
| IndexPanic.

Arguments Returned {A} a.
Arguments ReadError {A}.
Arguments Exited {A}.
Arguments IndexPanic {A}.

Definition Load_bind {A B : Type} (r : Load A) (k : A -> Load B) : Load B :=
  match r with
  | Returned a => k a
  | ReadError => ReadError
  | Exited => Exited
  | IndexPanic => IndexPanic
  end.

Notation "'let+' x ':=' e 'in' k" := (Load_bind e (fun x => k))
  (at level 10, x name, e at level 200, k at level 200, only parsing).

Section Loading.

(** [strconv.ParseInt(s, 10, 64)]: the number, or [None] for its error. *)
Variable ParseInt : String.string -> option Z.

Definition mustStrToInt (s : String.string) : Load Z :=
  match ParseInt s with
  | Some i => Returned i
  | None => Exited
  end.

(** [rows[i][k]]. *)
Definition field (row : list String.string) (k : nat) : Load String.string :=
  match row !! k with
  | Some f => Returned f
  | None => IndexPanic
  end.

(** The body of the loop of [loadProcesses] for one record. *)
Definition load_row (row : list String.string) : Load Process :=
  let+ f0 := field row 0 in
  let+ id := mustStrToInt f0 in
  let+ f1 := field row 1 in
  let+ burst := mustStrToInt f1 in
  let+ f2 := field row 2 in
  let+ arrival := mustStrToInt f2 in
  if Nat.eqb (length row) 4 then
    let+ f3 := field row 3 in
    let+ priority := mustStrToInt f3 in
    Returned {| ProcessID := id; ArrivalTime := arrival;
                BurstDuration := burst; Priority := priority |}
  else
    Returned {| ProcessID := id; ArrivalTime := arrival;
                BurstDuration := burst; Priority := 0 |}.

(** The loop of [loadProcesses], record after record. *)
Fixpoint load_rows (rows : list (list String.string)) : Load (list Process) :=
  match rows with
  | [] => Returned []
  | row :: rest =>
      let+ p := load_row row in
      let+ ps := load_rows rest in
      Returned (p :: ps)
  end.

(** [loadProcesses], given what [csv.NewReader(r).ReadAll()] returns: the
    records, or [None] for its error. *)
Definition loadProcesses (records : option (list (list String.string)))
  : Load (list Process) :=
  match records with
  | None => ReadError
  | Some rows => load_rows rows
  end.

(** A record and the process that it loads as: the first three fields are
    the id, the burst and the arrival time; a fourth field is the priority
    when there are exactly four fields, and the priority is 0 otherwise. *)
Definition row_loads (row : list String.string) (p : Process) : Prop :=
  exists (f0 f1 f2 : String.string) (rest : list String.string),
    row = f0 :: f1 :: f2 :: rest /\
    ParseInt f0 = Some (ProcessID p) /\
    ParseInt f1 = Some (BurstDuration p) /\
    ParseInt f2 = Some (ArrivalTime p) /\
    match rest with
    | [f3] => ParseInt f3 = Some (Priority p)
    | _ => Priority p = 0
    end.

End Loading.

(** An instance of [ParseInt]: the signed decimal numerals of the [int64]
    range ([+] or [-], then one digit or more). *)
Definition digit (c : Ascii.ascii) : option Z :=
  let n := Z.of_nat (Ascii.nat_of_ascii c) in
  if (48 <=? n) && (n <=? 57) then Some (n - 48) else None.

Fixpoint digits (s : String.string) (acc : Z) : option Z :=
  match s with
  | String.EmptyString => Some acc
  | String.String c rest =>
      match digit c with
      | Some d => digits rest (10 * acc + d)
      | None => None
      end
  end.

Definition unsigned_decimal (s : String.string) : option Z :=
  match s with
  | String.EmptyString => None
  | _ => digits s 0
  end.

Definition decimal (s : String.string) : option Z :=
  let value :=
    match s with
    | String.String c rest =>
        if Nat.eqb (Ascii.nat_of_ascii c) 45 then
          option_map Z.opp (unsigned_decimal rest)
        else if Nat.eqb (Ascii.nat_of_ascii c) 43 then unsigned_decimal rest
        else unsigned_decimal s
    | String.EmptyString => None
    end in
  match value with
  | Some z =>
      if (Int64.min_int <=? z) && (z <=? Int64.max_int) then Some z else None
  | None => None
  end.

(** ** Printing the chart *)

Definition newline : String.string :=
  String.String (Ascii.ascii_of_nat 10) String.EmptyString.

Definition tab : String.string :=
  String.String (Ascii.ascii_of_nat 9) String.EmptyString.

(** [len(s)] of a string. *)
Definition len (s : String.string) : Z := Z.of_nat (String.length s).

Fixpoint repeated (s : String.string) (n : nat) : String.string :=
  match n with
  | O => String.EmptyString
  | S n' => String.append s (repeated s n')
  end.

(** [strings.Repeat(s, count)], which panics on a negative count. *)
Definition Repeat (s : String.string) (count : Z) : Run String.string :=
  if count <? 0 then Panic else Done (repeated s (Z.to_nat count)).

Section Printing.

(** [fmt.Sprint] of an [int64]. *)
Variable Sprint : Z -> String.string.

(** The body of the first loop of [outputGantt]: one cell of the chart,
    appended to what has been written. *)
Definition gantt_cell (gantt : list TimeSlice) (i : Z)
  (written : String.string) : Run String.string :=
  let* a := load gantt i in
  let pid := Sprint (PID a) in
  let* padding := Repeat " "%string (Z.quot (8 - len pid) 2) in
  Done (String.append written
          (String.append padding
             (String.append pid (String.append padding "|"%string)))).

(** The body of the second loop of [outputGantt]: a start time and a tab,
    and the stop time after the last slice. *)
Definition gantt_time (gantt : list TimeSlice) (i : Z)
  (written : String.string) : Run String.string :=
  let* a := load gantt i in
  let written' :=
    String.append written (String.append (Sprint (Start a)) tab) in
  if Z.of_nat (length gantt) - 1 =? i then
    let* b := load gantt i in
    Done (String.append written' (Sprint (Stop b)))
  else Done written'.

(** [outputGantt]: the text that it writes. *)
Definition outputGantt (gantt : list TimeSlice) : Run String.string :=
  let written :=
    String.append (String.append "Gantt schedule"%string newline)
      "|"%string in
  let* written := for_range (range gantt) (gantt_cell gantt) written in
  let written := String.append written newline in
  let* written := for_range (range gantt) (gantt_time gantt) written in
  Done (String.append written (String.append newline newline)).

End Printing.

(** An instance of [Sprint]: the decimal numeral of an integer. *)
Definition decimal_numeral (z : Z) : String.string :=
  DecimalString.NilZero.string_of_int (Z.to_int z).

(** A slice of a process whose id has ten digits. *)
Definition wide_id : list TimeSlice :=
  [ {| PID := 1; Start := 0; Stop := 5 |};
    {| PID := 1000000000; Start := 5; Stop := 8 |} ].

(** A slice whose process id is printed with ten characters or more. *)
Definition wide (Sprint : Z -> String.string) (a : TimeSlice) : Prop :=
  10 <= len (Sprint (PID a)).

(** ** The four schedules of [main] *)


(** * Properties *)

(** ** Generic facts about numbers, runs, slices and loops *)

Lemma wrap64_in_range (z : Z) : Int64.in_range z -> Int64.wrap64 z = z.
Proof.
  unfold Int64.in_range, Int64.min_int, Int64.max_int, Int64.wrap64.
  intros Hz. rewrite Z.mod_small; lia.
Qed.

Lemma wrap64_range (z : Z) : Int64.in_range (Int64.wrap64 z).
Proof.
  unfold Int64.in_range, Int64.min_int, Int64.max_int, Int64.wrap64.
  pose proof (Z.mod_pos_bound (z + 2 ^ 63) (2 ^ 64) ltac:(lia)). lia.
Qed.

Lemma while_more_fuel {St : Type} (cond : St -> bool) (body : St -> Run St) :
  forall (fuel extra : nat) (s s' : St),
    while fuel cond body s = Done s' ->
    while (fuel + extra) cond body s = Done s'.
Proof.
  induction fuel as [|fuel IH]; intros extra s s' H.
  - simpl in H. destruct extra; simpl; destruct (cond s); congruence.
  - simpl in *. destruct (cond s); [|exact H].
    destruct (body s) as [s1| |]; simpl in *; try discriminate.
    now apply IH.
Qed.

Lemma while_ext {St : Type} (cond : St -> bool) (body1 body2 : St -> Run St) :
  (forall s, body1 s = body2 s) ->
  forall (fuel : nat) (s : St),
    while fuel cond body1 s = while fuel cond body2 s.
Proof.
  intros Hbody. induction fuel as [|fuel IH]; intros s; simpl; [reflexivity|].
  destruct (cond s); [|reflexivity].
  rewrite Hbody. destruct (body2 s); simpl; auto.
Qed.

Lemma for_range_ext {St : Type} (body1 body2 : Z -> St -> Run St) :
  (forall i s, body1 i s = body2 i s) ->
  forall (idx : list Z) (s : St),
    for_range idx body1 s = for_range idx body2 s.
Proof.
  intros Hbody. induction idx as [|i idx IH]; intros s; simpl; [reflexivity|].
  rewrite Hbody. destruct (body2 i s); simpl; auto.
Qed.

Lemma load_in_range {A : Type} (l : list A) (j : nat) :
  (j < length l)%nat -> exists a, load l (Z.of_nat j) = Done a.
Proof.
  intros Hj. unfold load.
  destruct (Z.ltb_spec (Z.of_nat j) 0) as [Hneg|_]; [lia|].
  rewrite Nat2Z.id.
  destruct (lookup_lt_is_Some_2 l j Hj) as [a Ha].
  exists a. now rewrite Ha.
Qed.

Lemma store_in_range {A : Type} (l : list A) (j : nat) (a : A) :
  (j < length l)%nat -> store l (Z.of_nat j) a = Done (<[j := a]> l).
Proof.
  intros Hj. unfold store.
  destruct (Z.leb_spec 0 (Z.of_nat j)) as [_|Hneg]; [|lia].
  destruct (Z.ltb_spec (Z.of_nat j) (Z.of_nat (length l))) as [_|Hge]; [|lia].
  simpl. now rewrite Nat2Z.id.
Qed.

(** A loop invariant for [for i := range ...], indexed by the number of
    turns already made. *)
Lemma for_range_invariant {St : Type} (P : nat -> St -> Prop)
  (body : Z -> St -> Run St) :
  forall (m k : nat) (s : St),
    P k s ->
    (forall (j : nat) (t : St), (k <= j < k + m)%nat -> P j t ->
       exists t', body (Z.of_nat j) t = Done t' /\ P (S j) t') ->
    exists s', for_range (upto (Z.of_nat k) m) body s = Done s' /\
               P (k + m)%nat s'.
Proof.
  induction m as [|m IH]; intros k s Hk Hstep.
  - exists s. split; [reflexivity|]. now rewrite Nat.add_0_r.
  - simpl. destruct (Hstep k s) as [t [Ht HP]]; [lia|exact Hk|].
    rewrite Ht. simpl.
    replace (Z.of_nat k + 1) with (Z.of_nat (S k)) by lia.
    destruct (IH (S k) t HP) as [s' [Hs' HP']].
    + intros j u Hj. apply Hstep. lia.
    + exists s'. split; [exact Hs'|].
      now replace (k + S m)%nat with (S k + m)%nat by lia.
Qed.

(** ** First-come, first-serve always runs to its end *)

Lemma map_insert {A B : Type} (f : A -> B) (l : list A) (j : nat) (x : A) :
  map f (<[j := x]> l) = <[j := f x]> (map f l).
Proof.
  revert j. induction l as [|a l IH]; intros [|j]; simpl; try reflexivity.
  f_equal. apply IH.
Qed.

Lemma map_replicate {A B : Type} (f : A -> B) (n : nat) (x : A) :
  map f (replicate n x) = replicate n (f x).
Proof. induction n as [|n IH]; simpl; [reflexivity|]. now f_equal. Qed.


(** Filling the first slot that is still in its initial state. *)
Lemma insert_next {A : Type} (a b : A) (k m : nat) :
  <[k := a]> (replicate k a ++ replicate (S m) b)
  = replicate (S k) a ++ replicate m b.
Proof.
  induction k as [|k IH]; simpl; [reflexivity|]. f_equal. exact IH.
Qed.

Lemma load_In {A : Type} (l : list A) (i : Z) (a : A) :
  load l i = Done a -> In a l.
Proof.
  unfold load. destruct (i <? 0); [discriminate|].
  destruct (l !! Z.to_nat i) as [x|] eqn:Hx; [|discriminate].
  intros H. injection H as <-.
  apply list_elem_of_In. eapply list_elem_of_lookup_2. exact Hx.
Qed.

(** One turn of the loop of [FCFSSchedule]: the row and the slice that it
    adds, and the waiting time that it leaves behind. *)
Lemma FCFS_body_total (processes : list Process) (j : nat) (v : Vars) :
  (j < length processes)%nat ->
  length (schedule v) = length processes ->
  exists (p : Process) (v' : Vars) (row : ScheduleRow) (slice : TimeSlice),
    load processes (Z.of_nat j) = Done p /\
    FCFS_body processes (Z.of_nat j) v = Done v' /\
    schedule v' = <[j := Some row]> (schedule v) /\
    gantt v' = gantt v ++ [slice] /\
    rowWait row = waitingTime v' /\
    waitingTime v'
    = (if 0 <? ArrivalTime p
       then Int64.sub (serviceTime v) (ArrivalTime p)
       else waitingTime v).
Proof.
  intros Hj Hlen. unfold FCFS_body.
  destruct (load_in_range processes j Hj) as [p ->]. simpl.
  rewrite store_in_range by lia. simpl.
  exists p. do 3 eexists. repeat split; reflexivity.
Qed.


(** ** First-come, first-serve when every process is there at time 0 *)

(** A process whose arrival time is not positive gets the waiting time of
    the row written before it. *)
Lemma FCFS_body_keeps_wait (processes : list Process) (i : Z)
  (p : Process) (v v' : Vars) :
  load processes i = Done p ->
  ArrivalTime p <= 0 ->
  FCFS_body processes i v = Done v' ->
  waitingTime v' = waitingTime v.
Proof.
  intros Hp Harr. unfold FCFS_body. rewrite Hp. simpl.
  destruct (Z.ltb_spec 0 (ArrivalTime p)) as [Hpos|_]; [lia|].
  destruct (store _ _ _); simpl; intros H; inversion H. reflexivity.
Qed.

Lemma FCFS_run_all_at_zero (processes : list Process) :
  (forall p : Process, In p processes -> ArrivalTime p = 0) ->
  exists v : Vars,
    FCFS_run processes = Done v /\
    FCFS_zero_invariant processes (length processes) v.
Proof.
  intros Hzero. unfold FCFS_run, range.
  destruct (for_range_invariant (FCFS_zero_invariant processes)
              (FCFS_body processes) (length processes) 0
              (init_vars processes)) as [v [Hv Hinv]].
  - split; simpl; [reflexivity|].
    rewrite map_replicate. f_equal. lia.
  - intros j t Hj (Hwait & Hrows).
    assert (Hlen : length (schedule t) = length processes).
    { rewrite <- (length_map (option_map rowWait)), Hrows, length_app,
        !length_replicate. lia. }
    destruct (FCFS_body_total processes j t)
      as (p & t' & row & slice & Hp & Ht & Hs & _ & Hrow & Hkeep);
      [lia|exact Hlen|].
    rewrite (Hzero p (load_In _ _ _ Hp)) in Hkeep. simpl in Hkeep.
    exists t'. split; [exact Ht|]. split.
    + congruence.
    + rewrite Hs, map_insert, Hrows. simpl.
      replace (rowWait row) with 0 by congruence.
      replace (length processes - j)%nat
        with (S (length processes - S j)) by lia.
      apply insert_next.
  - exists v. split; [exact Hv|exact Hinv].
Qed.

(** X14: when every process arrives at time 0, every row of
    [FCFSSchedule] has
    the waiting time 0, whatever the bursts of the processes listed
    before. *)
Lemma FCFS_all_at_zero_never_waits (processes : list Process) :
  (forall p : Process, In p processes -> ArrivalTime p = 0) ->
  Run_map waits (FCFSSchedule processes)
  = Done (replicate (length processes) (Some 0)).
Proof.
  intros Hzero.
  destruct (FCFS_run_all_at_zero processes Hzero) as (v & Hv & _ & Hrows).
  unfold FCFSSchedule. rewrite Hv. simpl. unfold waits. simpl.
  rewrite Hrows, Nat.sub_diag. simpl. now rewrite app_nil_r.
Qed.

(** ** The two non-preemptive schedulers coincide *)

Lemma Priority_pick_is_SJF_pick (processes : list Process)
  (remaining : list Z) (now i nextProcess : Z) :
  Priority_pick processes remaining now i nextProcess
  = SJF_pick processes remaining now i nextProcess.
Proof. unfold Priority_pick, SJF_pick. reflexivity. Qed.

Lemma Priority_iter_is_SJF_iter (processes : list Process) (s : Loop) :
  Priority_iter processes s = SJF_iter processes s.
Proof.
  unfold Priority_iter, SJF_iter.
  rewrite (for_range_ext _ _
             (Priority_pick_is_SJF_pick processes (remainingBurst s)
                (completion s))).
  reflexivity.
Qed.

(** C10: [SJFPrioritySchedule] and [SJFSchedule] are extensionally equal:
    on every process list, and whatever the iteration budget, both hand the
    same Gantt chart, the same table rows and the same three averages to
    the output routines (and both panic or both exhaust the budget
    otherwise). *)
Theorem SJFPriority_equals_SJF :
  forall (fuel : nat) (processes : list Process),
    SJFPrioritySchedule fuel processes = SJFSchedule fuel processes.
Proof.
  intros fuel processes.
  unfold SJFPrioritySchedule, SJFSchedule, Priority_run, SJF_run.
  rewrite (while_ext _ _ _ (Priority_iter_is_SJF_iter processes)).
  reflexivity.
Qed.

(** The choice made by [SJFPrioritySchedule] reads the arrival times of the
    processes and nothing else of them: two process lists with the same
    arrival times get the same choice, whatever their priorities. *)
Lemma Priority_pick_reads_arrival_only (ps1 ps2 : list Process)
  (remaining : list Z) (now i nextProcess : Z) :
  map ArrivalTime ps1 = map ArrivalTime ps2 ->
  Priority_pick ps1 remaining now i nextProcess
  = Priority_pick ps2 remaining now i nextProcess.
Proof.
  intros Hmap. unfold Priority_pick, load.
  destruct (i <? 0); [reflexivity|].
  assert (Hlook : option_map ArrivalTime (ps1 !! Z.to_nat i)
                  = option_map ArrivalTime (ps2 !! Z.to_nat i)).
  { generalize (Z.to_nat i). revert ps2 Hmap.
    induction ps1 as [|p1 ps1 IH]; intros [|p2 ps2] Hmap n;
      simpl in Hmap; try discriminate; [reflexivity|].
    injection Hmap as Hhd Htl.
    destruct n as [|n]; simpl; [now rewrite Hhd|now apply IH]. }
  destruct (ps1 !! Z.to_nat i) as [p1|], (ps2 !! Z.to_nat i) as [p2|];
    simpl in *; try discriminate; [|reflexivity].
  injection Hlook as ->. reflexivity.
Qed.

(** ** Where the loops stop *)

(** The three simulation loops are left as soon as the clock [completion]
    has reached the number of processes, whatever work is left. *)
Lemma loop_left_at_process_count (processes : list Process)
  (body : Loop -> Run Loop) (fuel : nat) (s : Loop) :
  Z.of_nat (length processes) <= completion s ->
  while fuel (loop_guard processes) body s = Done s.
Proof.
  intros Hclock.
  assert (Hguard : loop_guard processes s = false).
  { unfold loop_guard. apply Z.ltb_ge. exact Hclock. }
  destruct fuel; simpl; now rewrite Hguard.
Qed.

(** A loop whose body leaves the state as it is, while the guard holds,
    never ends. *)
Lemma while_stuck {St : Type} (cond : St -> bool) (body : St -> Run St) (s : St) :
  cond s = true -> body s = Done s ->
  forall fuel : nat, while fuel cond body s = OutOfFuel.
Proof.
  intros Hcond Hbody. induction fuel as [|fuel IH]; simpl; rewrite Hcond.
  - reflexivity.
  - rewrite Hbody. simpl. exact IH.
Qed.

(** [RRSchedule] does not return when no process is there at time 0: a pass
    that runs nothing does not move the clock. *)
Lemma RR_waits_forever :
  forall fuel : nat, RRSchedule fuel not_yet_there = OutOfFuel.
Proof.
  intros fuel. unfold RRSchedule, RR_run.
  rewrite while_stuck; reflexivity.
Qed.

(** Evaluates a simulation loop on closed data with [n] iterations and
    extends the result to every larger budget. *)
Ltac settle_loop n :=
  match goal with
  | |- context [while (n + ?extra) ?cond ?body ?s] =>
      let r := eval vm_compute in (while n cond body s) in
      match r with
      | Done ?s' =>
          rewrite (while_more_fuel cond body n extra s s'
                     ltac:(vm_compute; reflexivity))
      end
  end.

(** ** The defects on concrete process sets *)

(** C1 (defect of the code): on the processes 1, 2, 3 with bursts 24, 3, 3
    that all arrive at time 0, [FCFSSchedule] leaves [waitingTime] at 0 for
    every row, since it computes it for positive arrival times only.  The
    rows have wait 0/0/0 and turnaround 24/3/3 and the average wait is 0,
    not the wait 0/24/27, turnaround 24/27/30 and average 17 of the design
    document. *)
Theorem FCFS_three_at_zero :
  FCFSSchedule three_at_zero
  = Done {| out_gantt :=
              [ {| PID := 1; Start := 0; Stop := 24 |};
                {| PID := 2; Start := 0; Stop := 27 |};
                {| PID := 3; Start := 0; Stop := 30 |} ];
            out_schedule :=
              [ Some {| rowID := 1; rowPriority := 0; rowBurst := 24;
                        rowArrival := 0; rowWait := 0; rowTurnaround := 24;
                        rowExit := 24 |};
                Some {| rowID := 2; rowPriority := 0; rowBurst := 3;
                        rowArrival := 0; rowWait := 0; rowTurnaround := 3;
                        rowExit := 3 |};
                Some {| rowID := 3; rowPriority := 0; rowBurst := 3;
                        rowArrival := 0; rowWait := 0; rowTurnaround := 3;
                        rowExit := 3 |} ];
            out_aveWait := 0%float;
            out_aveTurnaround := 10%float;
            out_aveThroughput := 1%float |}.
Proof. vm_compute. reflexivity. Qed.

(** C2 (defect of the code): the loops of [SJFSchedule],
    [SJFPrioritySchedule] and [RRSchedule] run while the clock is below the
    number of processes, not while work is left.  On the valid process set
    with bursts 24, 3, 3 the two non-preemptive schedulers return after the
    second process alone has run (the rows of processes 1 and 3 are never
    written, their bursts are untouched), and [RRSchedule] returns after one
    pass with 22, 1 and 1 time units of work left. *)
Theorem loops_stop_at_process_count :
  valid_process_set three_at_zero = true /\
  forall extra : nat,
    Run_map (fun s => (remainingBurst s, written (schedule (vars s))))
      (SJF_run (3 + extra) three_at_zero)
    = Done ([24; 0; 3], [false; true; false]) /\
    Run_map (fun s => (remainingBurst s, written (schedule (vars s))))
      (Priority_run (3 + extra) three_at_zero)
    = Done ([24; 0; 3], [false; true; false]) /\
    Run_map (fun s => (remainingBurst s, written (schedule (vars s))))
      (RR_run (1 + extra) three_at_zero)
    = Done ([22; 1; 1], [true; true; true]).
Proof.
  split; [reflexivity|]. intros extra.
  unfold SJF_run, Priority_run, RR_run.
  repeat split.
  - settle_loop 3%nat. vm_compute. reflexivity.
  - settle_loop 3%nat. vm_compute. reflexivity.
  - settle_loop 1%nat. vm_compute. reflexivity.
Qed.

(** C3 (defect of the code): [SJFPrioritySchedule] chooses by remaining
    burst and never reads [Priority].  With process 1 (burst 1, priority 2)
    and process 2 (burst 2, priority 1) both present at time 0, the first
    choice is index 0, where the least priority value is at index 1, and
    process 1 runs before process 2. *)
Theorem Priority_chooses_by_burst :
  valid_process_set short_but_unimportant = true /\
  for_range (range short_but_unimportant)
    (Priority_pick short_but_unimportant
       (getBurstDurations short_but_unimportant) 0) (-1)
  = Done 0 /\
  documented_priority_choice 0 short_but_unimportant
    (getBurstDurations short_but_unimportant) 0 None
  = Some 1 /\
  forall extra : nat,
    Run_map out_gantt (SJFPrioritySchedule (3 + extra) short_but_unimportant)
    = Done [ {| PID := 1; Start := 0; Stop := 1 |};
             {| PID := 2; Start := 1; Stop := 3 |} ].
Proof.
  repeat split. intros extra.
  unfold SJFPrioritySchedule, Priority_run.
  settle_loop 3%nat. vm_compute. reflexivity.
Qed.

(** C4 (defect of the code): on the processes with bursts 24, 3, 3 that
    arrive at time 0, [SJFSchedule] runs process 2 and returns.  The only
    row is the one of process 2, with wait -2 and turnaround 1; the average
    wait is -2/3.  The design document has the order 2, 3, 1 with wait
    0/3/6, turnaround 3/6/30 and average wait 3. *)
Theorem SJF_three_at_zero :
  forall extra : nat,
    SJFSchedule (3 + extra) three_at_zero
    = Done {| out_gantt := [ {| PID := 2; Start := 0; Stop := 3 |} ];
              out_schedule :=
                [ None;
                  Some {| rowID := 2; rowPriority := 0; rowBurst := 3;
                          rowArrival := 0; rowWait := -2; rowTurnaround := 1;
                          rowExit := 3 |};
                  None ];
              out_aveWait := PrimFloat.div (-2)%float 3%float;
              out_aveTurnaround := PrimFloat.div 1%float 3%float;
              out_aveThroughput := 3%float |}.
Proof.
  intros extra. unfold SJFSchedule, SJF_run.
  settle_loop 3%nat. vm_compute. reflexivity.
Qed.
(** ** Round-robin on a single process *)

(** The one visit that [RRSchedule] pays to a single process whose burst
    exceeds the quantum. *)
Lemma RR_visit_alone (id priority burst : Z) :
  quantum < burst ->
  RR_visit (alone id burst priority) 0 (init_loop (alone id burst priority))
  = Done {| vars :=
              {| serviceTime := 1;
                 totalWait := 0%float;
                 totalTurnaround := 2%float;
                 lastCompletion := 2%float;
                 waitingTime := 0;
                 schedule :=
                   [ Some {| rowID := id; rowPriority := priority;
                             rowBurst := burst; rowArrival := 0;
                             rowWait := 0; rowTurnaround := 2;
                             rowExit := 2 |} ];
                 gantt := [ {| PID := id; Start := 0; Stop := 2 |} ] |};
            remainingBurst := [ Int64.sub burst quantum ];
            completion := 2 |}.
Proof.
  intros Hlong. unfold quantum in Hlong.
  unfold RR_visit, init_loop, alone, getBurstDurations. simpl.
  destruct (Z.ltb_spec 0 burst) as [_|Hle]; [|lia]. simpl.
  destruct (Z.leb_spec burst quantum) as [Hle|_]; [unfold quantum in Hle; lia|].
  reflexivity.
Qed.

Lemma RR_run_alone (id priority burst : Z) (extra : nat) :
  quantum < burst ->
  exists s : Loop,
    RR_run (1 + extra) (alone id burst priority) = Done s /\
    gantt (vars s) = [ {| PID := id; Start := 0; Stop := 2 |} ] /\
    remainingBurst s = [ Int64.sub burst quantum ].
Proof.
  intros Hlong. eexists. split.
  - unfold RR_run. apply while_more_fuel.
    simpl. unfold RR_iter. simpl. rewrite RR_visit_alone by exact Hlong.
    reflexivity.
  - split; reflexivity.
Qed.

(** C5 (defect of the code): for a single process present at time 0 whose
    burst exceeds the quantum, [RRSchedule] emits one slice, of the length
    of the quantum, and returns, because the clock has then reached the
    process count 1.  The design document asks for [ceil(burst / quantum)]
    slices, which is at least 2. *)
Theorem RR_single_process_single_slice :
  forall (id priority burst : Z) (extra : nat),
    quantum < burst ->
    Run_map out_gantt (RRSchedule (1 + extra) (alone id burst priority))
    = Done [ {| PID := id; Start := 0; Stop := quantum |} ] /\
    1 < documented_slice_count burst.
Proof.
  intros id priority burst extra Hlong. split.
  - destruct (RR_run_alone id priority burst extra Hlong) as (s & Hs & Hg & _).
    unfold RRSchedule. rewrite Hs. simpl. now rewrite Hg.
  - unfold documented_slice_count, quantum in *.
    apply Z.lt_le_trans with (m := 2); [lia|].
    apply Z.div_le_lower_bound; lia.
Qed.

(** The statement above at a process of burst 5: one slice, where
    [ceil(5 / 2) = 3]. *)
Lemma RR_single_process_single_slice_witness :
  quantum < 5 /\
  Run_map out_gantt (RRSchedule (1 + 0) (alone 1 5 0))
  = Done [ {| PID := 1; Start := 0; Stop := quantum |} ] /\
  1 < documented_slice_count 5.
Proof.
  split; [reflexivity|].
  apply (RR_single_process_single_slice 1 0 5 0). reflexivity.
Defined.

(** ** Rows and slices of concrete process sets *)

(** C6 (defect of the code): the waiting time of [FCFSSchedule] is not
    [max(0, serviceTimeSoFar - arrivalTime)].  On a valid process set whose
    second process arrives at time 9, after the first burst of 5 has ended,
    the wait of the second row is -4, and the third row, whose process
    arrives at time 0, gets the wait -4 of the row before it; the design
    document prescribes the waits 0, 0 and 8.  When all three processes
    arrive at time 0 the waits are 0, 0, 0 where 0, 24, 27 are
    prescribed. *)
Theorem FCFS_wait_departs_from_document :
  valid_process_set late_arrival = true /\
  Run_map waits (FCFSSchedule late_arrival)
  = Done [ Some 0; Some (-4); Some (-4) ] /\
  documented_FCFS_waits 0 late_arrival = [ 0; 0; 8 ] /\
  valid_process_set three_at_zero = true /\
  Run_map waits (FCFSSchedule three_at_zero)
  = Done [ Some 0; Some 0; Some 0 ] /\
  documented_FCFS_waits 0 three_at_zero = [ 0; 24; 27 ].
Proof. repeat split. Qed.

(** C7 (defect of the code): the rows do not satisfy the derived-quantity
    equations.  The row that [SJFSchedule] writes for the bursts 24, 3, 3
    has turnaround 1, exit 3, arrival 0 and wait -2; the row that
    [RRSchedule] writes for a single process of burst 5 has wait 0 and
    turnaround 2; the second row of [FCFSSchedule] for a process that
    arrives late has wait -4. *)
Theorem rows_break_derived_quantities :
  forall extra : nat,
    (exists r : ScheduleRow,
        Run_map out_schedule (SJFSchedule (3 + extra) three_at_zero)
        = Done [ None; Some r; None ] /\
        turnaround_is_exit_minus_arrival r = false /\
        wait_is_turnaround_minus_burst r = true /\
        wait_is_not_negative r = false) /\
    (exists r : ScheduleRow,
        Run_map out_schedule (RRSchedule (1 + extra) (alone 1 5 0))
        = Done [ Some r ] /\
        turnaround_is_exit_minus_arrival r = true /\
        wait_is_turnaround_minus_burst r = false /\
        wait_is_not_negative r = true) /\
    (exists r0 r r2 : ScheduleRow,
        Run_map out_schedule (FCFSSchedule late_arrival)
        = Done [ Some r0; Some r; Some r2 ] /\
        turnaround_is_exit_minus_arrival r = true /\
        wait_is_turnaround_minus_burst r = true /\
        wait_is_not_negative r = false).
Proof.
  intros extra. repeat split.
  - eexists. unfold SJFSchedule, SJF_run. settle_loop 3%nat.
    vm_compute. repeat split.
  - eexists. unfold RRSchedule, RR_run. settle_loop 1%nat.
    vm_compute. repeat split.
  - do 3 eexists. vm_compute. repeat split.
Qed.

(** C8 (defect of the code): the Gantt chart of [FCFSSchedule] has
    overlapping slices of different processes, and its start times can
    decrease.  For the bursts 24, 3, 3 arriving at time 0 the slices are
    [0,24) for process 1, [0,27) for process 2 and [0,30) for process 3;
    when the process listed first arrives at time 1 and the second one at
    time 0, the slices start at 0 and then at -1. *)
Theorem FCFS_slices_overlap :
  valid_process_set three_at_zero = true /\
  (exists a b c : TimeSlice,
      Run_map out_gantt (FCFSSchedule three_at_zero) = Done [ a; b; c ] /\
      PID a <> PID b /\ overlaps a b = true /\
      PID b <> PID c /\ overlaps b c = true) /\
  valid_process_set listed_before_arrival = true /\
  Run_map starts (FCFSSchedule listed_before_arrival) = Done [ 0; -1 ].
Proof.
  split; [reflexivity|]. split; [|split; reflexivity].
  do 3 eexists. vm_compute. repeat split; discriminate.
Qed.

(** ** No validation of the input *)



(** * Further properties of the program *)

(** ** Slices, again *)

Lemma load_nat {A : Type} (l : list A) (j : nat) (a : A) :
  l !! j = Some a -> load l (Z.of_nat j) = Done a.
Proof.
  intros H. unfold load.
  destruct (Z.ltb_spec (Z.of_nat j) 0) as [Hneg|_]; [lia|].
  now rewrite Nat2Z.id, H.
Qed.

Lemma load_lookup {A : Type} (l : list A) (i : Z) (a : A) :
  load l i = Done a -> 0 <= i /\ l !! Z.to_nat i = Some a.
Proof.
  unfold load. destruct (Z.ltb_spec i 0) as [|Hi]; [discriminate|].
  destruct (l !! Z.to_nat i) as [x|]; [|discriminate].
  intros H. injection H as ->. split; [exact Hi|reflexivity].
Qed.

(** ** Loops with an invariant *)

(** A loop whose body returns and keeps the invariant either returns in a
    state that has the invariant and fails the guard, or exhausts the
    budget: it does not panic. *)
Lemma while_invariant {St : Type} (Inv : St -> Prop) (cond : St -> bool)
  (body : St -> Run St) :
  (forall s : St, Inv s -> cond s = true ->
     exists s' : St, body s = Done s' /\ Inv s') ->
  forall (fuel : nat) (s : St),
    Inv s ->
    (exists s' : St,
        while fuel cond body s = Done s' /\ Inv s' /\ cond s' = false) \/
    while fuel cond body s = OutOfFuel.
Proof.
  intros Hbody. induction fuel as [|fuel IH]; intros s Hs; simpl.
  - destruct (cond s) eqn:Hc; [right; reflexivity|].
    left. exists s. auto.
  - destruct (cond s) eqn:Hc; [|left; exists s; auto].
    destruct (Hbody s Hs Hc) as (s1 & -> & Hs1). simpl.
    apply IH. exact Hs1.
Qed.


(** ** The choice of the shortest job *)

Lemma eligible_inv (processes : list Process) (remaining : list Z)
  (now : Z) (j : nat) (p : Process) (r : Z) :
  processes !! j = Some p -> remaining !! j = Some r ->
  eligible processes remaining now j -> 0 < r /\ ArrivalTime p <= now.
Proof.
  intros Hp Hr (p' & r' & Hp' & Hr' & H). congruence.
Qed.

(** One turn of the inner loop of [SJFSchedule]. *)
Lemma SJF_pick_step (processes : list Process) (remaining : list Z)
  (now : Z) (k : nat) (nextProcess : Z) :
  length remaining = length processes ->
  (k < length processes)%nat ->
  shortest_so_far processes remaining now k nextProcess ->
  exists next' : Z,
    SJF_pick processes remaining now (Z.of_nat k) nextProcess = Done next' /\
    shortest_so_far processes remaining now (S k) next'.
Proof.
  intros Hlen Hk Hsf.
  destruct (lookup_lt_is_Some_2 processes k Hk) as [p Hp].
  destruct (lookup_lt_is_Some_2 remaining k ltac:(lia)) as [r Hr].
  unfold SJF_pick. rewrite (load_nat _ _ _ Hp), (load_nat _ _ _ Hr). simpl.
  destruct (Z.ltb_spec 0 r) as [Hpos|Hnonpos]; simpl;
    [destruct (Z.leb_spec (ArrivalTime p) now) as [Harr|Hlate]|].
  - (* index k is eligible *)
    assert (Hel : eligible processes remaining now k)
      by (exists p, r; auto).
    destruct Hsf as [[-> Hnone]|(n & rn & -> & Hn & Heln & Hrn & Hmin)].
    + simpl. exists (Z.of_nat k). split; [reflexivity|].
      right. exists k, r. repeat split; auto.
      * assert (j = k) by (destruct (decide (j = k)); [auto|];
          exfalso; apply (Hnone j); [lia|auto]).
        subst j. replace rj with r by congruence. lia.
      * intros Hjk. exfalso. apply (Hnone j); [lia|auto].
    + destruct (Z.eqb_spec (Z.of_nat n) (-1)) as [Hbad|_]; [lia|].
      rewrite (load_nat _ _ _ Hrn). simpl.
      destruct (Z.ltb_spec r rn) as [Hlt|Hge].
      * exists (Z.of_nat k). split; [reflexivity|].
        right. exists k, r. repeat split; auto.
        -- destruct (decide (j = k)) as [->|Hne];
             [replace rj with r by congruence; lia|].
           destruct (Hmin j rj) as [Hle _]; auto; lia.
        -- intros Hjk. destruct (Hmin j rj) as [Hle _]; auto; lia.
      * exists (Z.of_nat n). split; [reflexivity|].
        right. exists n, rn. repeat split; auto.
        -- destruct (decide (j = k)) as [->|Hne];
             [replace rj with r by congruence; lia|].
           destruct (Hmin j rj) as [Hle _]; auto; lia.
        -- intros Hjn. destruct (decide (j = k)) as [->|Hne]; [lia|].
           destruct (Hmin j rj) as [_ Hlt]; auto; lia.
  - (* index k has not arrived *)
    exists nextProcess. split; [reflexivity|].
    assert (Hnot : ~ eligible processes remaining now k).
    { intros Hel. destruct (eligible_inv _ _ _ _ _ _ Hp Hr Hel). lia. }
    destruct Hsf as [[-> Hnone]|(n & rn & -> & Hn & Heln & Hrn & Hmin)].
    + left. split; [reflexivity|]. intros j Hj.
      destruct (decide (j = k)) as [->|Hne]; [exact Hnot|]. apply Hnone. lia.
    + right. exists n, rn. repeat split; auto.
      * destruct (decide (j = k)) as [->|Hne]; [contradiction|].
        destruct (Hmin j rj) as [Hle _]; auto; lia.
      * intros Hjn. destruct (decide (j = k)) as [->|Hne]; [contradiction|].
        destruct (Hmin j rj) as [_ Hlt]; auto; lia.
  - (* index k has no work left *)
    exists nextProcess. split; [reflexivity|].
    assert (Hnot : ~ eligible processes remaining now k).
    { intros Hel. destruct (eligible_inv _ _ _ _ _ _ Hp Hr Hel). lia. }
    destruct Hsf as [[-> Hnone]|(n & rn & -> & Hn & Heln & Hrn & Hmin)].
    + left. split; [reflexivity|]. intros j Hj.
      destruct (decide (j = k)) as [->|Hne]; [exact Hnot|]. apply Hnone. lia.
    + right. exists n, rn. repeat split; auto.
      * destruct (decide (j = k)) as [->|Hne]; [contradiction|].
        destruct (Hmin j rj) as [Hle _]; auto; lia.
      * intros Hjn. destruct (decide (j = k)) as [->|Hne]; [contradiction|].
        destruct (Hmin j rj) as [_ Hlt]; auto; lia.
Qed.

Lemma SJF_pick_loop (processes : list Process) (remaining : list Z)
  (now : Z) :
  length remaining = length processes ->
  exists nextProcess : Z,
    for_range (range processes) (SJF_pick processes remaining now) (-1)
    = Done nextProcess /\
    shortest_so_far processes remaining now (length processes) nextProcess.
Proof.
  intros Hlen. unfold range.
  destruct (for_range_invariant
              (shortest_so_far processes remaining now)
              (SJF_pick processes remaining now)
              (length processes) 0 (-1)) as (next & Hrun & Hnext).
  - left. split; [reflexivity|]. intros j Hj. lia.
  - intros j t Hj Ht. apply SJF_pick_step; [exact Hlen|lia|exact Ht].
  - exists next. split; [exact Hrun|exact Hnext].
Qed.

(** ** One iteration of the loop of [SJFSchedule] *)

(** Either no process is eligible and the clock advances by one, or the
    eligible process of least remaining burst loses one unit of work; when
    that was its last unit, its row and its slice are written and the clock
    advances by its whole burst. *)
Lemma SJF_iter_cases (processes : list Process) (s : Loop) :
  length (remainingBurst s) = length processes ->
  length (schedule (vars s)) = length processes ->
  (shortest_so_far processes (remainingBurst s) (completion s)
     (length processes) (-1) /\
   SJF_iter processes s
   = Done {| vars := vars s;
             remainingBurst := remainingBurst s;
             completion := Int64.add (completion s) 1 |}) \/
  (exists (n : nat) (p : Process) (r : Z),
      shortest_so_far processes (remainingBurst s) (completion s)
        (length processes) (Z.of_nat n) /\
      processes !! n = Some p /\ remainingBurst s !! n = Some r /\
      0 < r /\ ArrivalTime p <= completion s /\
      SJF_iter processes s
      = Done
          (if Int64.sub r 1 =? 0 then
             let turnaround :=
               Int64.add (Int64.sub (completion s) (ArrivalTime p)) 1 in
             let waitingTime' := Int64.sub turnaround (BurstDuration p) in
             let completion' := Int64.add (completion s) (BurstDuration p) in
             {| vars :=
                  {| serviceTime := Int64.add (serviceTime (vars s)) 1;
                     totalWait :=
                       PrimFloat.add (totalWait (vars s))
                         (float64 waitingTime');
                     totalTurnaround :=
                       PrimFloat.add (totalTurnaround (vars s))
                         (float64 turnaround);
                     lastCompletion :=
                       PrimFloat.add (float64 (completion s)) 1%float;
                     waitingTime := waitingTime';
                     schedule :=
                       <[n := Some {| rowID := ProcessID p;
                                      rowPriority := Priority p;
                                      rowBurst := BurstDuration p;
                                      rowArrival := ArrivalTime p;
                                      rowWait := waitingTime';
                                      rowTurnaround := turnaround;
                                      rowExit := completion' |}]>
                         (schedule (vars s));
                     gantt :=
                       gantt (vars s)
                       ++ [ {| PID := ProcessID p;
                               Start := completion s;
                               Stop := completion' |} ] |};
                remainingBurst := <[n := Int64.sub r 1]> (remainingBurst s);
                completion := completion' |}
           else
             {| vars :=
                  {| serviceTime := Int64.add (serviceTime (vars s)) 1;
                     totalWait := totalWait (vars s);
                     totalTurnaround := totalTurnaround (vars s);
                     lastCompletion := lastCompletion (vars s);
                     waitingTime := waitingTime (vars s);
                     schedule := schedule (vars s);
                     gantt := gantt (vars s) |};
                remainingBurst := <[n := Int64.sub r 1]> (remainingBurst s);
                completion := completion s |})).
Proof.
  intros Hrem Hsched.
  destruct (SJF_pick_loop processes (remainingBurst s) (completion s) Hrem)
    as (next & Hrun & Hnext).
  unfold SJF_iter. rewrite Hrun. simpl.
  pose proof Hnext as Hsf.
  destruct Hnext as [[-> Hnone]|(n & rn & -> & Hn & Heln & Hrn & Hmin)].
  - left. split; [exact Hsf|reflexivity].
  - right. destruct Heln as (p & r & Hp & Hr & Hpos & Harr).
    exists n, p, r. split; [exact Hsf|]. repeat split; auto.
    destruct (Z.eqb_spec (Z.of_nat n) (-1)) as [Hbad|_]; [lia|].
    rewrite (load_nat _ _ _ Hr). simpl.
    rewrite store_in_range by lia. simpl.
    rewrite (load_nat (<[n := Int64.sub r 1]> (remainingBurst s)) n
               (Int64.sub r 1))
      by (apply list_lookup_insert_eq; lia).
    simpl. destruct (Int64.sub r 1 =? 0); [|reflexivity].
    rewrite (load_nat _ _ _ Hp). simpl.
    rewrite store_in_range by lia. reflexivity.
Qed.

(** ** Charts *)

Lemma ordered_from_snoc (t : Z) (chart : list TimeSlice) (a : TimeSlice) :
  ordered_from t chart ->
  last_stop t chart <= Start a ->
  Start a < Stop a ->
  ordered_from t (chart ++ [a]) /\ last_stop t (chart ++ [a]) = Stop a.
Proof.
  revert t. induction chart as [|b chart IH]; intros t Hord Hlast Hpos; simpl in *.
  - repeat split; auto.
  - destruct Hord as (Hb1 & Hb2 & Hord).
    destruct (IH (Stop b) Hord Hlast Hpos) as [H1 H2].
    repeat split; auto.
Qed.

Lemma ordered_from_bounds (t : Z) (chart : list TimeSlice) :
  ordered_from t chart ->
  t <= last_stop t chart /\
  forall a : TimeSlice, In a chart ->
    t <= Start a /\ Start a < Stop a /\ Stop a <= last_stop t chart.
Proof.
  revert t. induction chart as [|b chart IH]; intros t Hord; simpl in *.
  - split; [lia|]. intros a [].
  - destruct Hord as (Hb1 & Hb2 & Hord).
    destruct (IH (Stop b) Hord) as [Hle Hall].
    split; [lia|]. intros a [<-|Ha]; [lia|].
    destruct (Hall a Ha) as (H1 & H2 & H3). lia.
Qed.

(** In an ordered chart a slice stops before any later slice starts: no two
    slices overlap, and the start times do not decrease. *)
Lemma ordered_from_pairwise (t : Z) (chart : list TimeSlice) :
  ordered_from t chart ->
  forall (i j : nat) (a b : TimeSlice),
    (i < j)%nat -> chart !! i = Some a -> chart !! j = Some b ->
    Stop a <= Start b /\ Start a <= Start b /\ overlaps a b = false.
Proof.
  revert t. induction chart as [|c chart IH]; intros t Hord i j a b Hij Ha Hb.
  - discriminate.
  - simpl in Hord. destruct Hord as (Hc1 & Hc2 & Hord).
    destruct j as [|j]; [lia|]. simpl in Hb.
    destruct i as [|i]; simpl in Ha.
    + injection Ha as <-.
      destruct (ordered_from_bounds _ _ Hord) as [_ Hall].
      destruct (Hall b) as (H1 & H2 & H3).
      { apply list_elem_of_In. eapply list_elem_of_lookup_2. exact Hb. }
      split; [lia|]. split; [lia|].
      unfold overlaps. apply andb_false_intro2. apply Z.ltb_ge. lia.
    + apply (IH (Stop c) Hord i j a b); auto. lia.
Qed.

(** ** The work that is left *)

Lemma work_left_nonneg (remaining : list Z) : 0 <= work_left remaining.
Proof. induction remaining as [|r rest IH]; simpl; lia. Qed.

Lemma work_left_insert (remaining : list Z) (n : nat) (r : Z) :
  remaining !! n = Some r -> 0 < r ->
  work_left (<[n := r - 1]> remaining) = work_left remaining - 1.
Proof.
  revert n. induction remaining as [|x rest IH]; intros [|n] Hn Hr;
    simpl in *; try discriminate.
  - injection Hn as ->. lia.
  - rewrite (IH n Hn Hr). lia.
Qed.

(** ** The loop of [SJFSchedule] keeps its invariant and makes progress *)

Lemma Int64_add_exact (a b : Z) :
  Int64.in_range (a + b) -> Int64.add a b = a + b.
Proof. apply wrap64_in_range. Qed.

Lemma Int64_sub_exact (a b : Z) :
  Int64.in_range (a - b) -> Int64.sub a b = a - b.
Proof. apply wrap64_in_range. Qed.

Lemma lookup_In {A : Type} (l : list A) (j : nat) (a : A) :
  l !! j = Some a -> In a l.
Proof.
  intros H. apply list_elem_of_In. eapply list_elem_of_lookup_2. exact H.
Qed.

Lemma SJF_invariant_init (processes : list Process) :
  SJF_invariant processes (init_loop processes).
Proof.
  unfold SJF_invariant, init_loop, init_vars, getBurstDurations. simpl.
  repeat split; auto.
  - apply length_map.
  - apply length_replicate.
  - lia.
  - intros j p r Hp Hr.
    change (map BurstDuration processes) with (BurstDuration <$> processes)
      in Hr.
    rewrite list_lookup_fmap, Hp in Hr. simpl in Hr. injection Hr as <-. lia.
  - lia.
Qed.

Lemma SJF_iter_keeps (processes : list Process) (s : Loop) :
  bursts_fit processes ->
  SJF_invariant processes s ->
  loop_guard processes s = true ->
  exists s' : Loop,
    SJF_iter processes s = Done s' /\
    SJF_invariant processes s' /\
    (SJF_measure processes s' < SJF_measure processes s)%nat.
Proof.
  intros [HN Hfit] (Hrem & Hsch & Hc & Hle & Hord & Hlast & Hall) Hguard.
  unfold loop_guard in Hguard. apply Z.ltb_lt in Hguard.
  unfold Int64.max_int in *.
  destruct (SJF_iter_cases processes s Hrem Hsch)
    as [[_ ->]|(n & p & r & _ & Hp & Hr & Hpos & Harr & ->)].
  - (* nothing to run *)
    eexists. split; [reflexivity|].
    assert (Hadd : Int64.add (completion s) 1 = completion s + 1).
    { apply Int64_add_exact. unfold Int64.in_range, Int64.min_int,
        Int64.max_int. lia. }
    unfold SJF_invariant, SJF_measure.
    cbn [vars remainingBurst completion]. rewrite Hadd.
    split; [repeat split; auto; lia|lia].
  - (* one unit of work for process n *)
    pose proof (Hle n p r Hp Hr) as Hrb.
    pose proof (Hfit p (lookup_In _ _ _ Hp)) as Hpb.
    pose proof (lookup_lt_Some _ _ _ Hr) as Hn.
    assert (Hsub : Int64.sub r 1 = r - 1).
    { apply Int64_sub_exact. unfold Int64.in_range, Int64.min_int,
        Int64.max_int. lia. }
    rewrite Hsub.
    pose proof (work_left_insert _ _ _ Hr Hpos) as Hwork.
    pose proof (work_left_nonneg (<[n := r - 1]> (remainingBurst s))) as Hnn.
    assert (Hle' : forall (j : nat) (q : Process) (x : Z),
               processes !! j = Some q ->
               <[n := r - 1]> (remainingBurst s) !! j = Some x ->
               x <= BurstDuration q).
    { intros j q x Hq Hx. destruct (decide (j = n)) as [->|Hne].
      - rewrite list_lookup_insert_eq in Hx by lia.
        injection Hx as <-. replace q with p by congruence. lia.
      - rewrite list_lookup_insert_ne in Hx by congruence.
        exact (Hle j q x Hq Hx). }
    eexists. split; [reflexivity|].
    destruct (Z.eqb_spec (r - 1) 0) as [Hlast1|Hmore].
    + (* it was the last unit *)
      assert (Hadd : Int64.add (completion s) (BurstDuration p)
                     = completion s + BurstDuration p).
      { apply Int64_add_exact. unfold Int64.in_range, Int64.min_int,
          Int64.max_int. lia. }
      unfold SJF_invariant, SJF_measure.
      cbn [vars remainingBurst completion schedule gantt]. cbv zeta.
      rewrite Hadd, Hwork.
      destruct (ordered_from_snoc 0 (gantt (vars s))
                  {| PID := ProcessID p; Start := completion s;
                     Stop := completion s + BurstDuration p |} Hord)
        as [Hord' Hlast']; [simpl; lia|simpl; lia|].
      split; [|lia].
      repeat split; auto.
      * now rewrite length_insert.
      * now rewrite length_insert.
      * lia.
      * rewrite Hlast'. simpl. lia.
      * apply Forall_app. split; [exact Hall|].
        constructor; [|constructor].
        exists p. simpl. repeat split; auto.
        exact (lookup_In _ _ _ Hp).
    + unfold SJF_invariant, SJF_measure.
      cbn [vars remainingBurst completion schedule gantt].
      rewrite Hwork.
      split; [|lia].
      repeat split; auto.
      now rewrite length_insert.
Qed.

Lemma Priority_run_is_SJF_run (fuel : nat) (processes : list Process) :
  Priority_run fuel processes = SJF_run fuel processes.
Proof.
  unfold Priority_run, SJF_run.
  apply while_ext. apply Priority_iter_is_SJF_iter.
Qed.

Lemma Priority_schedule_is_SJF_schedule (fuel : nat)
  (processes : list Process) :
  SJFPrioritySchedule fuel processes = SJFSchedule fuel processes.
Proof.
  unfold SJFPrioritySchedule, SJFSchedule.
  now rewrite Priority_run_is_SJF_run.
Qed.


Lemma SJF_run_invariant (processes : list Process) (fuel : nat) (s : Loop) :
  bursts_fit processes ->
  SJF_run fuel processes = Done s ->
  SJF_invariant processes s.
Proof.
  intros Hfit Hrun.
  destruct (while_invariant (SJF_invariant processes)
              (loop_guard processes) (SJF_iter processes)
              (fun s Hs Hc =>
                 match SJF_iter_keeps processes s Hfit Hs Hc with
                 | ex_intro _ s' (conj H1 (conj H2 _)) =>
                     ex_intro _ s' (conj H1 H2)
                 end)
              fuel (init_loop processes) (SJF_invariant_init processes))
    as [(s' & Hs' & Hinv & _)|Hout];
    unfold SJF_run in Hrun; congruence.
Qed.


Lemma bursts_fit_three_at_zero : bursts_fit three_at_zero.
Proof.
  split; [vm_compute; discriminate|].
  intros p [<-|[<-|[<-|[]]]]; vm_compute; discriminate.
Qed.


(** X3: The chart of the shortest-job-first loop can be followed by one
    processor: when the number of processes plus any burst fits in an
    [int64], the slices that [SJFSchedule] (or [SJFPrioritySchedule]) hands
    to [outputGantt] are in order, each starting no earlier than the one
    before it stops, and each slice runs one of the listed processes, not
    before its arrival time, for exactly its whole burst. *)
Theorem SJF_chart_in_order :
  forall (fuel : nat) (processes : list Process) (out : Output),
    bursts_fit processes ->
    SJFSchedule fuel processes = Done out \/
    SJFPrioritySchedule fuel processes = Done out ->
    ordered_from 0 (out_gantt out) /\
    Forall (runs_whole_burst processes) (out_gantt out).
Proof.
  intros fuel processes out Hfit Hout.
  assert (Hdone : SJFSchedule fuel processes = Done out).
  { destruct Hout as [H|H]; [exact H|].
    etransitivity; [symmetry; apply Priority_schedule_is_SJF_schedule|].
    exact H. }
  unfold SJFSchedule in Hdone.
  destruct (SJF_run fuel processes) as [s| |] eqn:Hrun; try discriminate.
  injection Hdone as <-.
  destruct (SJF_run_invariant processes fuel s Hfit Hrun)
    as (_ & _ & _ & _ & Hord & _ & Hall).
  split; [exact Hord|exact Hall].
Qed.

Lemma SJF_chart_in_order_witness :
  bursts_fit short_but_unimportant /\
  (SJFSchedule 3 short_but_unimportant
   = Done {| out_gantt := [ {| PID := 1; Start := 0; Stop := 1 |};
                            {| PID := 2; Start := 1; Stop := 3 |} ];
             out_schedule :=
               [ Some {| rowID := 1; rowPriority := 2; rowBurst := 1;
                         rowArrival := 0; rowWait := 0; rowTurnaround := 1;
                         rowExit := 1 |};
                 Some {| rowID := 2; rowPriority := 1; rowBurst := 2;
                         rowArrival := 0; rowWait := 0; rowTurnaround := 2;
                         rowExit := 3 |} ];
             out_aveWait := 0%float;
             out_aveTurnaround := 1.5%float;
             out_aveThroughput := 1%float |}) /\
  ordered_from 0 [ {| PID := 1; Start := 0; Stop := 1 |};
                   {| PID := 2; Start := 1; Stop := 3 |} ] /\
  Forall (runs_whole_burst short_but_unimportant)
    [ {| PID := 1; Start := 0; Stop := 1 |};
      {| PID := 2; Start := 1; Stop := 3 |} ].
Proof.
  assert (Hfit : bursts_fit short_but_unimportant).
  { split; [vm_compute; discriminate|].
    intros p [<-|[<-|[]]]; vm_compute; discriminate. }
  split; [exact Hfit|]. split; [vm_compute; reflexivity|].
  apply (SJF_chart_in_order 3 short_but_unimportant
           {| out_gantt := [ {| PID := 1; Start := 0; Stop := 1 |};
                             {| PID := 2; Start := 1; Stop := 3 |} ];
              out_schedule :=
                [ Some {| rowID := 1; rowPriority := 2; rowBurst := 1;
                          rowArrival := 0; rowWait := 0; rowTurnaround := 1;
                          rowExit := 1 |};
                  Some {| rowID := 2; rowPriority := 1; rowBurst := 2;
                          rowArrival := 0; rowWait := 0; rowTurnaround := 2;
                          rowExit := 3 |} ];
              out_aveWait := 0%float;
              out_aveTurnaround := 1.5%float;
              out_aveThroughput := 1%float |} Hfit).
  left. vm_compute. reflexivity.
Defined.

(** X1: The rule by which the next process is chosen: the inner loop of
    [SJFSchedule], and the identical one of [SJFPrioritySchedule], leave
    [-1] in [nextProcess] when no process has both arrived and work left;
    otherwise they leave the index of the arrived process with the least
    remaining burst, and among several of these the one listed first. *)
Theorem SJF_chooses_shortest_remaining :
  forall (processes : list Process) (remaining : list Z) (now : Z),
    length remaining = length processes ->
    exists nextProcess : Z,
      for_range (range processes) (SJF_pick processes remaining now) (-1)
      = Done nextProcess /\
      for_range (range processes) (Priority_pick processes remaining now)
        (-1)
      = Done nextProcess /\
      shortest_so_far processes remaining now (length processes)
        nextProcess.
Proof.
  intros processes remaining now Hlen.
  destruct (SJF_pick_loop processes remaining now Hlen) as (next & Hrun & H).
  exists next. split; [exact Hrun|]. split; [|exact H].
  rewrite <- Hrun. apply for_range_ext. intros i s.
  apply Priority_pick_is_SJF_pick.
Qed.

Lemma SJF_chooses_shortest_remaining_witness :
  length [3; 2; 2] = length three_at_zero /\
  exists nextProcess : Z,
    for_range (range three_at_zero) (SJF_pick three_at_zero [3; 2; 2] 0) (-1)
    = Done nextProcess /\
    for_range (range three_at_zero) (Priority_pick three_at_zero [3; 2; 2] 0)
      (-1)
    = Done nextProcess /\
    shortest_so_far three_at_zero [3; 2; 2] 0 (length three_at_zero)
      nextProcess.
Proof.
  split; [reflexivity|].
  apply (SJF_chooses_shortest_remaining three_at_zero [3; 2; 2] 0).
  reflexivity.
Defined.

(** ** One visit of the round-robin loop *)

(** A process that has no work left or has not arrived is passed over;
    otherwise it runs for its remaining burst, when that is within the
    quantum, or for one quantum. *)
Lemma RR_visit_cases (processes : list Process) (j : nat) (s : Loop) :
  tables_sized processes s ->
  (j < length processes)%nat ->
  exists (p : Process) (r : Z),
    processes !! j = Some p /\ remainingBurst s !! j = Some r /\
    RR_visit processes (Z.of_nat j) s
    = Done
        (if (0 <? r) && (ArrivalTime p <=? completion s) then
           let waitingTime' := Int64.sub (completion s) (ArrivalTime p) in
           if r <=? quantum then
             let turnaround := Int64.add waitingTime' r in
             let completion' := Int64.add (completion s) (BurstDuration p) in
             {| vars :=
                  {| serviceTime := Int64.add (serviceTime (vars s)) 1;
                     totalWait :=
                       PrimFloat.add (totalWait (vars s))
                         (float64 waitingTime');
                     totalTurnaround :=
                       PrimFloat.add (totalTurnaround (vars s))
                         (float64 turnaround);
                     lastCompletion :=
                       PrimFloat.add (float64 (completion s)) (float64 r);
                     waitingTime := waitingTime';
                     schedule :=
                       <[j := Some {| rowID := ProcessID p;
                                      rowPriority := Priority p;
                                      rowBurst := BurstDuration p;
                                      rowArrival := ArrivalTime p;
                                      rowWait := waitingTime';
                                      rowTurnaround := turnaround;
                                      rowExit :=
                                        Int64.add (completion s) r |}]>
                         (schedule (vars s));
                     gantt :=
                       gantt (vars s)
                       ++ [ {| PID := ProcessID p;
                               Start := completion s;
                               Stop := completion' |} ] |};
                remainingBurst := <[j := 0]> (remainingBurst s);
                completion := completion' |}
           else
             let turnaround := Int64.add waitingTime' quantum in
             let completion' := Int64.add (completion s) quantum in
             {| vars :=
                  {| serviceTime := Int64.add (serviceTime (vars s)) 1;
                     totalWait :=
                       PrimFloat.add (totalWait (vars s))
                         (float64 waitingTime');
                     totalTurnaround :=
                       PrimFloat.add (totalTurnaround (vars s))
                         (float64 turnaround);
                     lastCompletion :=
                       PrimFloat.add (float64 (completion s))
                         (float64 quantum);
                     waitingTime := waitingTime';
                     schedule :=
                       <[j := Some {| rowID := ProcessID p;
                                      rowPriority := Priority p;
                                      rowBurst := BurstDuration p;
                                      rowArrival := ArrivalTime p;
                                      rowWait := waitingTime';
                                      rowTurnaround := turnaround;
                                      rowExit :=
                                        Int64.add (completion s) quantum |}]>
                         (schedule (vars s));
                     gantt :=
                       gantt (vars s)
                       ++ [ {| PID := ProcessID p;
                               Start := completion s;
                               Stop := completion' |} ] |};
                remainingBurst :=
                  <[j := Int64.sub r quantum]> (remainingBurst s);
                completion := completion' |}
         else s).
Proof.
  intros [Hrem Hsch] Hj.
  destruct (lookup_lt_is_Some_2 processes j Hj) as [p Hp].
  destruct (lookup_lt_is_Some_2 (remainingBurst s) j ltac:(lia)) as [r Hr].
  exists p, r. split; [exact Hp|]. split; [exact Hr|].
  unfold RR_visit.
  rewrite (load_nat _ _ _ Hr). simpl. rewrite (load_nat _ _ _ Hp). simpl.
  destruct ((0 <? r) && (ArrivalTime p <=? completion s)); [|reflexivity].
  destruct (r <=? quantum).
  - rewrite store_in_range by lia. simpl.
    rewrite store_in_range by lia. reflexivity.
  - rewrite store_in_range by lia. simpl.
    rewrite store_in_range by lia. reflexivity.
Qed.

(** A pass of the round-robin loop keeps every property that each visit
    keeps. *)
Lemma RR_iter_keeps (processes : list Process) (Inv : Loop -> Prop) :
  (forall s : Loop, Inv s -> tables_sized processes s) ->
  (forall (j : nat) (s s' : Loop),
      (j < length processes)%nat -> Inv s ->
      RR_visit processes (Z.of_nat j) s = Done s' -> Inv s') ->
  forall s : Loop,
    Inv s -> exists s' : Loop, RR_iter processes s = Done s' /\ Inv s'.
Proof.
  intros Hsized Hvisit s Hs. unfold RR_iter, range.
  destruct (for_range_invariant (fun _ => Inv) (RR_visit processes)
              (length processes) 0 s Hs) as (s' & Hrun & Hs').
  - intros j t Hj Ht.
    destruct (RR_visit_cases processes j t (Hsized t Ht)) as (p & r & _ & _ & H);
      [lia|].
    eexists. split; [exact H|]. eapply Hvisit; [|exact Ht|exact H]. lia.
  - exists s'. auto.
Qed.

Lemma tables_sized_init (processes : list Process) :
  tables_sized processes (init_loop processes).
Proof.
  split; simpl; [apply length_map|apply length_replicate].
Qed.

Lemma RR_visit_sized (processes : list Process) (j : nat) (s s' : Loop) :
  (j < length processes)%nat -> tables_sized processes s ->
  RR_visit processes (Z.of_nat j) s = Done s' -> tables_sized processes s'.
Proof.
  intros Hj Hs Hrun.
  destruct (RR_visit_cases processes j s Hs Hj) as (p & r & _ & _ & H).
  rewrite H in Hrun. injection Hrun as <-. destruct Hs as [Hrem Hsch].
  destruct ((0 <? r) && (ArrivalTime p <=? completion s));
    [|split; assumption].
  destruct (r <=? quantum); split; simpl; now rewrite length_insert.
Qed.



(** ** Rows *)

Lemma rows_satisfy_init (processes : list Process)
  (R : Process -> ScheduleRow -> Prop) (n : nat) :
  rows_satisfy processes R (replicate n None).
Proof.
  intros j row H. apply lookup_replicate in H. destruct H as [H _].
  discriminate.
Qed.

Lemma rows_satisfy_insert (processes : list Process)
  (R : Process -> ScheduleRow -> Prop) (rows : list (option ScheduleRow))
  (n : nat) (p : Process) (row : ScheduleRow) :
  rows_satisfy processes R rows ->
  processes !! n = Some p -> R p row ->
  rows_satisfy processes R (<[n := Some row]> rows).
Proof.
  intros Hrows Hp HR j row' H.
  destruct (decide (j = n)) as [->|Hne].
  - destruct (decide (n < length rows)%nat) as [Hlt|Hge].
    + rewrite list_lookup_insert_eq in H by exact Hlt.
      injection H as <-. exists p. auto.
    + rewrite list_insert_ge in H by lia. exact (Hrows n row' H).
  - rewrite list_lookup_insert_ne in H by congruence. exact (Hrows j row' H).
Qed.

(** ** Processes that arrive late are never run by the non-preemptive loops *)

Lemma SJF_iter_skips_late (processes : list Process) (s : Loop) :
  tables_sized processes s /\
  (forall (j : nat) (p : Process),
      processes !! j = Some p ->
      Z.of_nat (length processes) <= ArrivalTime p ->
      schedule (vars s) !! j = Some None) ->
  loop_guard processes s = true ->
  exists s' : Loop,
    SJF_iter processes s = Done s' /\
    (tables_sized processes s' /\
     forall (j : nat) (p : Process),
       processes !! j = Some p ->
       Z.of_nat (length processes) <= ArrivalTime p ->
       schedule (vars s') !! j = Some None).
Proof.
  intros [[Hrem Hsch] Hlate] Hguard.
  unfold loop_guard in Hguard. apply Z.ltb_lt in Hguard.
  destruct (SJF_iter_cases processes s Hrem Hsch)
    as [[_ ->]|(n & p & r & _ & Hp & Hr & Hpos & Harr & ->)].
  - eexists. split; [reflexivity|]. split; [split; assumption|exact Hlate].
  - eexists. split; [reflexivity|].
    destruct (Int64.sub r 1 =? 0); simpl.
    + split; [split; simpl; now rewrite length_insert|].
      intros j q Hq Hqlate.
      rewrite list_lookup_insert_ne; [exact (Hlate j q Hq Hqlate)|].
      intros ->. assert (q = p) by congruence. subst q. lia.
    + split; [split; simpl; rewrite ?length_insert; assumption|exact Hlate].
Qed.

(** X5: A process that arrives when the clock has reached the number of
    processes, or later, is never run by [SJFSchedule] or
    [SJFPrioritySchedule]: when the scheduler returns, the row of that
    process is still nil. *)
Theorem SJF_never_runs_late_arrivals :
  forall (fuel : nat) (processes : list Process) (out : Output)
         (j : nat) (p : Process),
    SJFSchedule fuel processes = Done out \/
    SJFPrioritySchedule fuel processes = Done out ->
    processes !! j = Some p ->
    Z.of_nat (length processes) <= ArrivalTime p ->
    out_schedule out !! j = Some None.
Proof.
  intros fuel processes out j p Hout Hp Hlate.
  assert (Hdone : SJFSchedule fuel processes = Done out).
  { destruct Hout as [H|H]; [exact H|].
    etransitivity; [symmetry; apply Priority_schedule_is_SJF_schedule|].
    exact H. }
  unfold SJFSchedule, SJF_run in Hdone.
  destruct (while_invariant _ (loop_guard processes) (SJF_iter processes)
              (SJF_iter_skips_late processes) fuel (init_loop processes))
    as [(s & Hs & [_ Hrows] & _)|Hfuel].
  - split; [apply tables_sized_init|]. intros i q Hq _. simpl.
    apply lookup_replicate. split; [reflexivity|].
    exact (lookup_lt_Some _ _ _ Hq).
  - rewrite Hs in Hdone. injection Hdone as <-. simpl.
    exact (Hrows j p Hp Hlate).
  - rewrite Hfuel in Hdone. discriminate.
Qed.

Lemma SJF_never_runs_late_arrivals_witness :
  (SJFSchedule 2 one_comes_late
   = Done {| out_gantt := [ {| PID := 1; Start := 0; Stop := 1 |} ];
             out_schedule :=
               [ Some {| rowID := 1; rowPriority := 0; rowBurst := 1;
                         rowArrival := 0; rowWait := 0; rowTurnaround := 1;
                         rowExit := 1 |};
                 None ];
             out_aveWait := 0%float;
             out_aveTurnaround := 0.5%float;
             out_aveThroughput := 2%float |}) /\
  one_comes_late !! 1%nat
  = Some {| ProcessID := 2; ArrivalTime := 2; BurstDuration := 1;
            Priority := 0 |} /\
  Z.of_nat (length one_comes_late) <= 2 /\
  [ Some {| rowID := 1; rowPriority := 0; rowBurst := 1;
            rowArrival := 0; rowWait := 0; rowTurnaround := 1;
            rowExit := 1 |};
    None ] !! 1%nat = Some (@None ScheduleRow).
Proof.
  split; [vm_compute; reflexivity|]. split; [reflexivity|].
  split; [vm_compute; discriminate|].
  apply (SJF_never_runs_late_arrivals 2 one_comes_late
           {| out_gantt := [ {| PID := 1; Start := 0; Stop := 1 |} ];
              out_schedule :=
                [ Some {| rowID := 1; rowPriority := 0; rowBurst := 1;
                          rowArrival := 0; rowWait := 0; rowTurnaround := 1;
                          rowExit := 1 |};
                  None ];
              out_aveWait := 0%float;
              out_aveTurnaround := 0.5%float;
              out_aveThroughput := 2%float |}
           1%nat
           {| ProcessID := 2; ArrivalTime := 2; BurstDuration := 1;
              Priority := 0 |}).
  - left. vm_compute. reflexivity.
  - reflexivity.
  - vm_compute. discriminate.
Defined.

(** ** The rows of the non-preemptive loops *)

Lemma SJF_iter_keeps_rows (processes : list Process) (s : Loop) :
  bursts_fit processes ->
  (forall p : Process, In p processes -> 0 <= ArrivalTime p) ->
  SJF_invariant processes s /\
  rows_satisfy processes SJF_row (schedule (vars s)) ->
  loop_guard processes s = true ->
  exists s' : Loop,
    SJF_iter processes s = Done s' /\
    (SJF_invariant processes s' /\
     rows_satisfy processes SJF_row (schedule (vars s'))).
Proof.
  intros Hfit Harrive [Hinv Hrows] Hguard.
  destruct (SJF_iter_keeps processes s Hfit Hinv Hguard)
    as (s' & Hrun & Hinv' & _).
  exists s'. split; [exact Hrun|]. split; [exact Hinv'|].
  destruct Hfit as [HN Hfit].
  destruct Hinv as (Hrem & Hsch & Hc & Hle & _).
  unfold loop_guard in Hguard. apply Z.ltb_lt in Hguard.
  unfold Int64.max_int in *.
  destruct (SJF_iter_cases processes s Hrem Hsch)
    as [[_ Hidle]|(n & p & r & _ & Hp & Hr & Hpos & Harr & Hwork)].
  - rewrite Hidle in Hrun. injection Hrun as <-. exact Hrows.
  - rewrite Hwork in Hrun. injection Hrun as <-.
    pose proof (Hle n p r Hp Hr) as Hrb.
    pose proof (Hfit p (lookup_In _ _ _ Hp)) as Hpb.
    pose proof (Harrive p (lookup_In _ _ _ Hp)) as Hpa.
    destruct (Int64.sub r 1 =? 0); [|exact Hrows].
    cbn [vars schedule]. cbv zeta.
    apply rows_satisfy_insert with (p := p); [exact Hrows|exact Hp|].
    assert (H1 : Int64.sub (completion s) (ArrivalTime p)
                 = completion s - ArrivalTime p).
    { apply Int64_sub_exact. unfold Int64.in_range, Int64.min_int,
        Int64.max_int. lia. }
    assert (H2 : Int64.add (completion s - ArrivalTime p) 1
                 = completion s - ArrivalTime p + 1).
    { apply Int64_add_exact. unfold Int64.in_range, Int64.min_int,
        Int64.max_int. lia. }
    assert (H3 : Int64.sub (completion s - ArrivalTime p + 1)
                   (BurstDuration p)
                 = completion s - ArrivalTime p + 1 - BurstDuration p).
    { apply Int64_sub_exact. unfold Int64.in_range, Int64.min_int,
        Int64.max_int. lia. }
    assert (H4 : Int64.add (completion s) (BurstDuration p)
                 = completion s + BurstDuration p).
    { apply Int64_add_exact. unfold Int64.in_range, Int64.min_int,
        Int64.max_int. lia. }
    rewrite H1, H2, H3, H4.
    unfold SJF_row, row_describes. simpl. repeat split; lia.
Qed.

(** X4: The rows of the non-preemptive loops: when the number of processes plus
    any burst fits in an [int64] and no arrival time is negative, every row
    that [SJFSchedule] (or [SJFPrioritySchedule]) writes stands at the index
    of its process and copies its id, priority, burst and arrival; its wait
    is its turnaround less its burst; and its turnaround is
    [exit - arrival - (burst - 1)], so that it equals [exit - arrival] for
    a burst of 1 only. *)
Theorem SJF_rows :
  forall (fuel : nat) (processes : list Process) (out : Output),
    bursts_fit processes ->
    (forall p : Process, In p processes -> 0 <= ArrivalTime p) ->
    SJFSchedule fuel processes = Done out \/
    SJFPrioritySchedule fuel processes = Done out ->
    rows_satisfy processes SJF_row (out_schedule out).
Proof.
  intros fuel processes out Hfit Harrive Hout.
  assert (Hdone : SJFSchedule fuel processes = Done out).
  { destruct Hout as [H|H]; [exact H|].
    etransitivity; [symmetry; apply Priority_schedule_is_SJF_schedule|].
    exact H. }
  unfold SJFSchedule, SJF_run in Hdone.
  destruct (while_invariant _ (loop_guard processes) (SJF_iter processes)
              (fun s => SJF_iter_keeps_rows processes s Hfit Harrive)
              fuel (init_loop processes))
    as [(s & Hs & [_ Hrows] & _)|Hfuel].
  - split; [apply SJF_invariant_init|apply rows_satisfy_init].
  - rewrite Hs in Hdone. injection Hdone as <-. exact Hrows.
  - rewrite Hfuel in Hdone. discriminate.
Qed.

Lemma SJF_rows_witness :
  bursts_fit three_at_zero /\
  (forall p : Process, In p three_at_zero -> 0 <= ArrivalTime p) /\
  (SJFSchedule 3 three_at_zero
   = Done {| out_gantt := [ {| PID := 2; Start := 0; Stop := 3 |} ];
             out_schedule :=
               [ None;
                 Some {| rowID := 2; rowPriority := 0; rowBurst := 3;
                         rowArrival := 0; rowWait := -2; rowTurnaround := 1;
                         rowExit := 3 |};
                 None ];
             out_aveWait := PrimFloat.div (-2)%float 3%float;
             out_aveTurnaround := PrimFloat.div 1%float 3%float;
             out_aveThroughput := 3%float |}) /\
  rows_satisfy three_at_zero SJF_row
    [ None;
      Some {| rowID := 2; rowPriority := 0; rowBurst := 3;
              rowArrival := 0; rowWait := -2; rowTurnaround := 1;
              rowExit := 3 |};
      None ].
Proof.
  assert (Harrive : forall p : Process,
             In p three_at_zero -> 0 <= ArrivalTime p).
  { intros p [<-|[<-|[<-|[]]]]; vm_compute; discriminate. }
  split; [exact bursts_fit_three_at_zero|]. split; [exact Harrive|].
  split; [vm_compute; reflexivity|].
  apply (SJF_rows 3 three_at_zero
           {| out_gantt := [ {| PID := 2; Start := 0; Stop := 3 |} ];
              out_schedule :=
                [ None;
                  Some {| rowID := 2; rowPriority := 0; rowBurst := 3;
                          rowArrival := 0; rowWait := -2; rowTurnaround := 1;
                          rowExit := 3 |};
                  None ];
              out_aveWait := PrimFloat.div (-2)%float 3%float;
              out_aveTurnaround := PrimFloat.div 1%float 3%float;
              out_aveThroughput := 3%float |}
           bursts_fit_three_at_zero Harrive).
  left. vm_compute. reflexivity.
Defined.

(** ** Round-robin with nobody there *)

Lemma RR_iter_idle (processes : list Process) (s : Loop) :
  tables_sized processes s ->
  (forall (j : nat) (p : Process) (r : Z),
      processes !! j = Some p -> remainingBurst s !! j = Some r ->
      r <= 0 \/ completion s < ArrivalTime p) ->
  RR_iter processes s = Done s.
Proof.
  intros Hsized Hidle. unfold RR_iter, range.
  destruct (for_range_invariant (fun _ t => t = s) (RR_visit processes)
              (length processes) 0 s eq_refl) as (s' & Hrun & ->);
    [|exact Hrun].
  intros j t Hj ->.
  destruct (RR_visit_cases processes j s Hsized) as (p & r & Hp & Hr & H);
    [lia|].
  exists s. split; [|reflexivity]. rewrite H.
  destruct (Hidle j p r Hp Hr) as [Hdone|Hlate].
  - destruct (Z.ltb_spec 0 r); [lia|reflexivity].
  - destruct (Z.leb_spec (ArrivalTime p) (completion s)); [lia|].
    now rewrite andb_false_r.
Qed.

(** X7: [RRSchedule] never returns when nobody is there at time 0: for a
    process list that is not empty and in which every process with a
    positive burst arrives after time 0, a pass runs nothing and does not
    move the clock, so the loop goes on for ever (every iteration budget is
    exhausted). *)
Theorem RR_spins_when_nobody_is_there :
  forall (fuel : nat) (processes : list Process),
    processes <> [] ->
    (forall p : Process,
        In p processes -> BurstDuration p <= 0 \/ 0 < ArrivalTime p) ->
    RRSchedule fuel processes = OutOfFuel.
Proof.
  intros fuel processes Hne Hnobody.
  unfold RRSchedule, RR_run. rewrite while_stuck; [reflexivity| |].
  - unfold loop_guard. simpl. apply Z.ltb_lt.
    destruct processes; [contradiction|simpl; lia].
  - apply RR_iter_idle; [apply tables_sized_init|].
    intros j p r Hp Hr. simpl in Hr. unfold getBurstDurations in Hr.
    change (map BurstDuration processes) with (BurstDuration <$> processes)
      in Hr.
    rewrite list_lookup_fmap, Hp in Hr. simpl in Hr. injection Hr as <-.
    simpl. exact (Hnobody p (lookup_In _ _ _ Hp)).
Qed.

Lemma RR_spins_when_nobody_is_there_witness :
  not_yet_there <> [] /\
  (forall p : Process,
      In p not_yet_there -> BurstDuration p <= 0 \/ 0 < ArrivalTime p) /\
  RRSchedule 7 not_yet_there = OutOfFuel.
Proof.
  assert (H1 : not_yet_there <> []) by discriminate.
  assert (H2 : forall p : Process,
             In p not_yet_there ->
             BurstDuration p <= 0 \/ 0 < ArrivalTime p).
  { intros p [<-|[]]. right. reflexivity. }
  split; [exact H1|]. split; [exact H2|].
  apply (RR_spins_when_nobody_is_there 7 not_yet_there H1 H2).
Defined.

(** ** Arithmetic modulo 2^64 *)

Lemma wrap64_add_l (a b : Z) :
  Int64.wrap64 (Int64.wrap64 a + b) = Int64.wrap64 (a + b).
Proof.
  unfold Int64.wrap64. f_equal.
  replace ((a + 2 ^ 63) mod 2 ^ 64 - 2 ^ 63 + b + 2 ^ 63)
    with ((a + 2 ^ 63) mod 2 ^ 64 + b) by lia.
  rewrite Zplus_mod_idemp_l. f_equal. lia.
Qed.

Lemma wrap64_sub_l (a b : Z) :
  Int64.wrap64 (Int64.wrap64 a - b) = Int64.wrap64 (a - b).
Proof.
  replace (Int64.wrap64 a - b) with (Int64.wrap64 a + - b) by lia.
  rewrite wrap64_add_l. reflexivity.
Qed.

(** ** The rows of round-robin *)

Lemma RR_visit_keeps_rows (processes : list Process) (j : nat)
  (s s' : Loop) :
  (j < length processes)%nat ->
  tables_sized processes s /\
  rows_satisfy processes RR_row (schedule (vars s)) ->
  RR_visit processes (Z.of_nat j) s = Done s' ->
  tables_sized processes s' /\
  rows_satisfy processes RR_row (schedule (vars s')).
Proof.
  intros Hj [Hsized Hrows] Hrun.
  split; [exact (RR_visit_sized processes j s s' Hj Hsized Hrun)|].
  destruct (RR_visit_cases processes j s Hsized Hj) as (p & r & Hp & _ & H).
  rewrite H in Hrun. injection Hrun as <-.
  destruct ((0 <? r) && (ArrivalTime p <=? completion s)); [|exact Hrows].
  destruct (r <=? quantum); cbv zeta; cbn [vars schedule];
    (apply rows_satisfy_insert with (p := p); [exact Hrows|exact Hp|]).
  all: split; [repeat split|]; cbn [rowTurnaround rowExit rowArrival].
  - unfold Int64.add, Int64.sub.
    rewrite wrap64_add_l, wrap64_sub_l. f_equal. lia.
  - unfold Int64.add, Int64.sub.
    rewrite wrap64_add_l, wrap64_sub_l. f_equal. lia.
Qed.

(** X10: The rows of round-robin: whatever the process list, every row that
    [RRSchedule] has written when it returns stands at the index of its
    process, copies its id, priority, burst and arrival, and has a
    turnaround equal to its exit less its arrival (in [int64]
    arithmetic). *)
Theorem RR_rows :
  forall (fuel : nat) (processes : list Process) (out : Output),
    RRSchedule fuel processes = Done out ->
    rows_satisfy processes RR_row (out_schedule out).
Proof.
  intros fuel processes out Hdone. unfold RRSchedule, RR_run in Hdone.
  destruct (while_invariant
              (fun s => tables_sized processes s /\
                        rows_satisfy processes RR_row (schedule (vars s)))
              (loop_guard processes) (RR_iter processes)
              (fun s Hs _ =>
                 RR_iter_keeps processes _ (fun _ H => proj1 H)
                   (RR_visit_keeps_rows processes) s Hs)
              fuel (init_loop processes))
    as [(s & Hs & [_ Hrows] & _)|Hfuel].
  - split; [apply tables_sized_init|apply rows_satisfy_init].
  - rewrite Hs in Hdone. injection Hdone as <-. exact Hrows.
  - rewrite Hfuel in Hdone. discriminate.
Qed.

Lemma RR_rows_witness :
  (RRSchedule 1 (alone 1 5 0)
   = Done {| out_gantt := [ {| PID := 1; Start := 0; Stop := 2 |} ];
             out_schedule :=
               [ Some {| rowID := 1; rowPriority := 0; rowBurst := 5;
                         rowArrival := 0; rowWait := 0; rowTurnaround := 2;
                         rowExit := 2 |} ];
             out_aveWait := 0%float;
             out_aveTurnaround := 2%float;
             out_aveThroughput := 0.5%float |}) /\
  rows_satisfy (alone 1 5 0) RR_row
    [ Some {| rowID := 1; rowPriority := 0; rowBurst := 5;
              rowArrival := 0; rowWait := 0; rowTurnaround := 2;
              rowExit := 2 |} ].
Proof.
  split; [vm_compute; reflexivity|].
  apply (RR_rows 1 (alone 1 5 0)
           {| out_gantt := [ {| PID := 1; Start := 0; Stop := 2 |} ];
              out_schedule :=
                [ Some {| rowID := 1; rowPriority := 0; rowBurst := 5;
                          rowArrival := 0; rowWait := 0; rowTurnaround := 2;
                          rowExit := 2 |} ];
              out_aveWait := 0%float;
              out_aveTurnaround := 2%float;
              out_aveThroughput := 0.5%float |}).
  vm_compute. reflexivity.
Defined.

(** ** One turn of the loop of [FCFSSchedule] *)

Lemma FCFS_body_cases (processes : list Process) (j : nat) (v : Vars) :
  (j < length processes)%nat ->
  length (schedule v) = length processes ->
  exists p : Process,
    processes !! j = Some p /\
    FCFS_body processes (Z.of_nat j) v
    = Done
        (let waitingTime' :=
           if 0 <? ArrivalTime p
           then Int64.sub (serviceTime v) (ArrivalTime p)
           else waitingTime v in
         let turnaround := Int64.add (BurstDuration p) waitingTime' in
         let completion :=
           Int64.add (Int64.add (BurstDuration p) (ArrivalTime p))
             waitingTime' in
         let serviceTime' := Int64.add (serviceTime v) (BurstDuration p) in
         {| serviceTime := serviceTime';
            totalWait := PrimFloat.add (totalWait v) (float64 waitingTime');
            totalTurnaround :=
              PrimFloat.add (totalTurnaround v) (float64 turnaround);
            lastCompletion := float64 completion;
            waitingTime := waitingTime';
            schedule :=
              <[j := Some {| rowID := ProcessID p;
                             rowPriority := Priority p;
                             rowBurst := BurstDuration p;
                             rowArrival := ArrivalTime p;
                             rowWait := waitingTime';
                             rowTurnaround := turnaround;
                             rowExit := completion |}]> (schedule v);
            gantt :=
              gantt v
              ++ [ {| PID := ProcessID p;
                      Start := Int64.add waitingTime' (ArrivalTime p);
                      Stop := serviceTime' |} ] |}).
Proof.
  intros Hj Hlen.
  destruct (lookup_lt_is_Some_2 processes j Hj) as [p Hp].
  exists p. split; [exact Hp|].
  unfold FCFS_body. rewrite (load_nat _ _ _ Hp). simpl.
  rewrite store_in_range by lia. reflexivity.
Qed.

Lemma served_S (processes : list Process) (k : nat) (p : Process) :
  processes !! k = Some p ->
  served processes (S k) = Int64.add (served processes k) (BurstDuration p).
Proof.
  intros Hp. unfold served.
  rewrite (take_S_r _ _ _ Hp), map_app, fold_left_app. reflexivity.
Qed.

Lemma insert_at_end {A : Type} (l r : list A) (k : nat) (x y : A) :
  length l = k -> <[k := x]> (l ++ y :: r) = l ++ x :: r.
Proof.
  revert k. induction l as [|a l IH]; intros k Hk; simpl in *; subst k.
  - reflexivity.
  - simpl. f_equal. now apply IH.
Qed.

Lemma FCFS_body_progress (processes : list Process) (k : nat) (v : Vars) :
  (k < length processes)%nat ->
  FCFS_progress processes k v ->
  exists v' : Vars,
    FCFS_body processes (Z.of_nat k) v = Done v' /\
    FCFS_progress processes (S k) v'.
Proof.
  intros Hk (Hlen & Hgl & Hst & Hstr & Hwr & Hrows & Hpid & Hstop).
  destruct (FCFS_body_cases processes k v Hk Hlen) as (p & Hp & Hrun).
  eexists. split; [exact Hrun|]. cbv zeta.
  set (w := if 0 <? ArrivalTime p
            then Int64.sub (serviceTime v) (ArrivalTime p)
            else waitingTime v).
  assert (Hw : Int64.in_range w).
  { unfold w. destruct (0 <? ArrivalTime p); [apply wrap64_range|exact Hwr]. }
  unfold FCFS_progress.
  cbn [schedule gantt serviceTime waitingTime].
  split; [|split; [|split; [|split; [|split; [|split; [|split]]]]]].
  - now rewrite length_insert.
  - rewrite length_app. simpl. lia.
  - rewrite Hst. symmetry. now apply served_S.
  - apply wrap64_range.
  - exact Hw.
  - apply rows_satisfy_insert with (p := p); [exact Hrows|exact Hp|].
    split; [repeat split|split]; cbn [rowTurnaround rowExit rowArrival
                                       rowWait rowBurst].
    + unfold Int64.add, Int64.sub.
      rewrite wrap64_add_l, wrap64_sub_l. f_equal. lia.
    + unfold Int64.add, Int64.sub.
      rewrite wrap64_sub_l.
      replace (BurstDuration p + w - BurstDuration p) with w by lia.
      symmetry. now apply wrap64_in_range.
  - rewrite map_app, Hpid, (take_S_r _ _ _ Hp), map_app. reflexivity.
  - rewrite map_app, Hstop, seq_S, map_app. simpl.
    rewrite Hst, <- (served_S _ _ _ Hp). reflexivity.
Qed.

Lemma FCFS_run_progress (processes : list Process) :
  exists v : Vars,
    FCFS_run processes = Done v /\
    FCFS_progress processes (length processes) v.
Proof.
  unfold FCFS_run, range.
  destruct (for_range_invariant (FCFS_progress processes)
              (FCFS_body processes) (length processes) 0
              (init_vars processes)) as (v & Hv & Hinv).
  - unfold FCFS_progress, init_vars, served. simpl.
    split; [apply length_replicate|].
    split; [reflexivity|]. split; [reflexivity|].
    split; [split; vm_compute; discriminate|].
    split; [split; vm_compute; discriminate|].
    split; [apply rows_satisfy_init|]. split; reflexivity.
  - intros j t Hj Ht. apply FCFS_body_progress; [lia|exact Ht].
  - exists v. auto.
Qed.


(** X12: The chart of first-come, first-serve: whatever the process list, the
    slices follow the input order, one for each process, and the [i]-th
    slice stops at the [int64] sum of the first [i] bursts, whatever the
    arrival times are. *)
Theorem FCFS_chart_stops :
  forall processes : list Process,
    exists out : Output,
      FCFSSchedule processes = Done out /\
      map PID (out_gantt out) = map ProcessID processes /\
      map Stop (out_gantt out)
      = map (served processes) (seq 1 (length processes)).
Proof.
  intros processes.
  destruct (FCFS_run_progress processes)
    as (v & Hv & _ & _ & _ & _ & _ & _ & Hpid & Hstop).
  exists (report processes v). unfold FCFSSchedule. rewrite Hv.
  split; [reflexivity|]. simpl.
  rewrite firstn_all in Hpid. auto.
Qed.

(** ** First-come, first-serve when every process arrives after time 0 *)

Lemma FCFS_body_gap_free (processes : list Process) (k : nat) (v : Vars) :
  (forall p : Process, In p processes -> 0 < ArrivalTime p) ->
  (k < length processes)%nat ->
  FCFS_gap_free processes k v ->
  exists v' : Vars,
    FCFS_body processes (Z.of_nat k) v = Done v' /\
    FCFS_gap_free processes (S k) v'.
Proof.
  intros Hafter Hk [Hprog [Hstart Hexit]].
  destruct (FCFS_body_progress processes k v Hk Hprog) as (v' & Hrun & Hprog').
  exists v'. split; [exact Hrun|]. split; [exact Hprog'|].
  destruct Hprog as (Hlen & Hgl & Hst & Hstr & _).
  destruct (FCFS_body_cases processes k v Hk Hlen) as (p & Hp & Hrun').
  rewrite Hrun' in Hrun. injection Hrun as <-.
  pose proof (Hafter p (lookup_In _ _ _ Hp)) as Hpos.
  apply Z.ltb_lt in Hpos. rewrite Hpos.
  cbv zeta. cbn [schedule gantt].
  assert (Hs : Int64.add (Int64.sub (serviceTime v) (ArrivalTime p))
                 (ArrivalTime p) = serviceTime v).
  { unfold Int64.add, Int64.sub. rewrite wrap64_add_l.
    replace (serviceTime v - ArrivalTime p + ArrivalTime p)
      with (serviceTime v) by lia.
    now apply wrap64_in_range. }
  assert (He : Int64.add (Int64.add (BurstDuration p) (ArrivalTime p))
                 (Int64.sub (serviceTime v) (ArrivalTime p))
               = Int64.add (serviceTime v) (BurstDuration p)).
  { unfold Int64.add, Int64.sub. rewrite wrap64_add_l.
    replace (BurstDuration p + ArrivalTime p
             + Int64.wrap64 (serviceTime v - ArrivalTime p))
      with (Int64.wrap64 (serviceTime v - ArrivalTime p)
            + (BurstDuration p + ArrivalTime p)) by lia.
    rewrite wrap64_add_l. f_equal. lia. }
  split.
  - rewrite map_app, Hstart, seq_S, map_app. simpl.
    rewrite Hs, Hst. reflexivity.
  - rewrite map_insert, Hexit. cbn [option_map rowExit]. rewrite He.
    replace (length processes - k)%nat
      with (S (length processes - S k)) by lia.
    simpl replicate.
    rewrite insert_at_end by (rewrite length_map; exact Hgl).
    rewrite map_app. simpl. now rewrite <- app_assoc.
Qed.

(** X13: The chart of first-come, first-serve has no gap and no overlap when
    every process arrives after time 0: [FCFSSchedule] returns, the first
    slice starts at 0, every other slice starts at the time at which the
    slice before it stops, and the exit column of the table is the stop
    column of the chart. *)
Theorem FCFS_gap_free_after_zero :
  forall processes : list Process,
    (forall p : Process, In p processes -> 0 < ArrivalTime p) ->
    exists out : Output,
      FCFSSchedule processes = Done out /\
      map Start (out_gantt out)
      = map (served processes) (seq 0 (length processes)) /\
      map Stop (out_gantt out)
      = map (served processes) (seq 1 (length processes)) /\
      map (option_map rowExit) (out_schedule out)
      = map (fun a => Some (Stop a)) (out_gantt out).
Proof.
  intros processes Hafter.
  destruct (for_range_invariant (FCFS_gap_free processes)
              (FCFS_body processes) (length processes) 0
              (init_vars processes)) as (v & Hv & Hprog & Hstart & Hexit).
  - split; [|split; [reflexivity|]].
    + unfold FCFS_progress, init_vars, served. simpl.
      split; [apply length_replicate|].
      split; [reflexivity|]. split; [reflexivity|].
      split; [split; vm_compute; discriminate|].
      split; [split; vm_compute; discriminate|].
      split; [apply rows_satisfy_init|]. split; reflexivity.
    + simpl. rewrite map_replicate. f_equal. lia.
  - intros j t Hj Ht. apply FCFS_body_gap_free; [exact Hafter|lia|exact Ht].
  - assert (Hrun : FCFS_run processes = Done v) by exact Hv.
    exists (report processes v). unfold FCFSSchedule. rewrite Hrun.
    split; [reflexivity|]. simpl in *.
    destruct Hprog as (_ & _ & _ & _ & _ & _ & _ & Hstop).
    split; [exact Hstart|]. split; [exact Hstop|].
    rewrite Hexit, Nat.sub_diag. simpl. apply app_nil_r.
Qed.

Lemma FCFS_gap_free_after_zero_witness :
  (forall p : Process, In p all_after_zero -> 0 < ArrivalTime p) /\
  exists out : Output,
    FCFSSchedule all_after_zero = Done out /\
    map Start (out_gantt out)
    = map (served all_after_zero) (seq 0 (length all_after_zero)) /\
    map Stop (out_gantt out)
    = map (served all_after_zero) (seq 1 (length all_after_zero)) /\
    map (option_map rowExit) (out_schedule out)
    = map (fun a => Some (Stop a)) (out_gantt out).
Proof.
  assert (H : forall p : Process, In p all_after_zero -> 0 < ArrivalTime p).
  { intros p [<-|[<-|[]]]; reflexivity. }
  split; [exact H|]. apply (FCFS_gap_free_after_zero all_after_zero H).
Defined.

(** ** The chart of round-robin *)

Lemma longest_pass_app (l1 l2 : list Process) :
  longest_pass (l1 ++ l2) = longest_pass l1 + longest_pass l2.
Proof. induction l1 as [|p l1 IH]; simpl; [reflexivity|]. rewrite IH. lia. Qed.

Lemma longest_pass_nonneg (l : list Process) : 0 <= longest_pass l.
Proof. induction l as [|p l IH]; simpl; unfold quantum; lia. Qed.

Lemma longest_pass_take_S (processes : list Process) (k : nat) (p : Process) :
  processes !! k = Some p ->
  longest_pass (take (S k) processes)
  = longest_pass (take k processes) + Z.max quantum (BurstDuration p).
Proof.
  intros Hp. rewrite (take_S_r _ _ _ Hp), longest_pass_app. simpl. lia.
Qed.

Lemma longest_pass_take_le (processes : list Process) (k : nat) :
  longest_pass (take k processes) <= longest_pass processes.
Proof.
  rewrite <- (take_drop k processes) at 2. rewrite longest_pass_app.
  pose proof (longest_pass_nonneg (drop k processes)). lia.
Qed.

Lemma RR_visit_keeps_chart (processes : list Process) (k : nat) (s : Loop) :
  pass_fits processes ->
  (k < length processes)%nat ->
  RR_pass_invariant processes k s ->
  exists s' : Loop,
    RR_visit processes (Z.of_nat k) s = Done s' /\
    RR_pass_invariant processes (S k) s'.
Proof.
  intros Hfit Hk [(Hsized & Hc & Hle & Hord & Hlast & Hall) Hbound].
  destruct (RR_visit_cases processes k s Hsized Hk) as (p & r & Hp & Hr & H).
  eexists. split; [exact H|].
  pose proof (longest_pass_take_S _ _ _ Hp) as HS.
  pose proof (longest_pass_take_le processes (S k)) as Hmax.
  pose proof (Hle k p r Hp Hr) as Hrb.
  pose proof (lookup_lt_Some _ _ _ Hr) as Hkr.
  pose proof Hsized as [Hrem Hsch].
  unfold pass_fits, Int64.max_int in Hfit. unfold quantum in *.
  destruct (Z.ltb_spec 0 r) as [Hpos|Hnone]; simpl;
    [destruct (Z.leb_spec (ArrivalTime p) (completion s)) as [Harr|Hlate]|].
  - (* the process runs *)
    simpl. cbv zeta.
    destruct (Z.leb_spec r 2) as [Hshort|Hlong].
    + (* for the rest of its burst *)
      assert (Hadd : Int64.add (completion s) (BurstDuration p)
                     = completion s + BurstDuration p).
      { apply Int64_add_exact. unfold Int64.in_range, Int64.min_int,
          Int64.max_int. lia. }
      rewrite Hadd.
      destruct (ordered_from_snoc 0 (gantt (vars s))
                  {| PID := ProcessID p; Start := completion s;
                     Stop := completion s + BurstDuration p |} Hord)
        as [Hord' Hlast']; [simpl; lia|simpl; lia|].
      split; [|cbn [completion]; lia].
      unfold RR_invariant. cbn [vars remainingBurst completion schedule gantt].
      split; [split; cbn [vars remainingBurst schedule];
              rewrite length_insert; assumption|].
      split; [lia|]. split; [|split; [exact Hord'|split]].
      * intros j q x Hq Hx. destruct (decide (j = k)) as [->|Hne].
        -- rewrite list_lookup_insert_eq in Hx by lia.
           injection Hx as <-. replace q with p by congruence. lia.
        -- rewrite list_lookup_insert_ne in Hx by congruence.
           exact (Hle j q x Hq Hx).
      * rewrite Hlast'. simpl. lia.
      * apply Forall_app. split; [exact Hall|].
        constructor; [|constructor].
        exists p. simpl. split; [exact (lookup_In _ _ _ Hp)|]. auto.
    + (* for one quantum *)
      assert (Hadd : Int64.add (completion s) 2 = completion s + 2).
      { apply Int64_add_exact. unfold Int64.in_range, Int64.min_int,
          Int64.max_int. lia. }
      assert (Hsub : Int64.sub r 2 = r - 2).
      { apply Int64_sub_exact. unfold Int64.in_range, Int64.min_int,
          Int64.max_int. lia. }
      rewrite Hadd, Hsub.
      destruct (ordered_from_snoc 0 (gantt (vars s))
                  {| PID := ProcessID p; Start := completion s;
                     Stop := completion s + 2 |} Hord)
        as [Hord' Hlast']; [simpl; lia|simpl; lia|].
      split; [|cbn [completion]; lia].
      unfold RR_invariant. cbn [vars remainingBurst completion schedule gantt].
      split; [split; cbn [vars remainingBurst schedule];
              rewrite length_insert; assumption|].
      split; [lia|]. split; [|split; [exact Hord'|split]].
      * intros j q x Hq Hx. destruct (decide (j = k)) as [->|Hne].
        -- rewrite list_lookup_insert_eq in Hx by lia.
           injection Hx as <-. replace q with p by congruence. lia.
        -- rewrite list_lookup_insert_ne in Hx by congruence.
           exact (Hle j q x Hq Hx).
      * rewrite Hlast'. simpl. lia.
      * apply Forall_app. split; [exact Hall|].
        constructor; [|constructor].
        exists p. simpl. split; [exact (lookup_In _ _ _ Hp)|]. auto.
  - split; [repeat split; auto; apply Hsized|lia].
  - split; [repeat split; auto; apply Hsized|lia].
Qed.

Lemma RR_iter_keeps_chart (processes : list Process) (s : Loop) :
  pass_fits processes ->
  RR_invariant processes s ->
  loop_guard processes s = true ->
  exists s' : Loop,
    RR_iter processes s = Done s' /\ RR_invariant processes s'.
Proof.
  intros Hfit Hinv Hguard.
  unfold loop_guard in Hguard. apply Z.ltb_lt in Hguard.
  destruct (for_range_invariant (RR_pass_invariant processes)
              (RR_visit processes) (length processes) 0 s)
    as (s' & Hrun & [Hinv' _]).
  - split; [exact Hinv|]. simpl. lia.
  - intros j t Hj Ht. apply RR_visit_keeps_chart; [exact Hfit|lia|exact Ht].
  - exists s'. split; [exact Hrun|exact Hinv'].
Qed.

Lemma RR_invariant_init (processes : list Process) :
  RR_invariant processes (init_loop processes).
Proof.
  split; [apply tables_sized_init|]. simpl.
  split; [lia|]. split; [|split; [exact I|split; [lia|constructor]]].
  intros j p r Hp Hr. unfold getBurstDurations in Hr.
  change (map BurstDuration processes) with (BurstDuration <$> processes)
    in Hr.
  rewrite list_lookup_fmap, Hp in Hr. simpl in Hr. injection Hr as <-. lia.
Qed.

(** X9: The chart of round-robin can be followed by one processor: when the
    number of processes plus the longest possible pass fits in an [int64],
    the slices that [RRSchedule] hands to [outputGantt] are in order, each
    starting no earlier than the one before it stops, and each slice runs a
    listed process, not before its arrival time, for one quantum or for the
    length of its whole burst. *)
Theorem RR_chart_in_order :
  forall (fuel : nat) (processes : list Process) (out : Output),
    pass_fits processes ->
    RRSchedule fuel processes = Done out ->
    ordered_from 0 (out_gantt out) /\
    Forall (RR_slice processes) (out_gantt out).
Proof.
  intros fuel processes out Hfit Hdone.
  unfold RRSchedule, RR_run in Hdone.
  destruct (while_invariant (RR_invariant processes)
              (loop_guard processes) (RR_iter processes)
              (fun s => RR_iter_keeps_chart processes s Hfit)
              fuel (init_loop processes) (RR_invariant_init processes))
    as [(s & Hs & Hinv & _)|Hfuel].
  - rewrite Hs in Hdone. injection Hdone as <-.
    destruct Hinv as (_ & _ & _ & Hord & _ & Hall). split; assumption.
  - rewrite Hfuel in Hdone. discriminate.
Qed.

Lemma RR_chart_in_order_witness :
  pass_fits three_at_zero /\
  (RRSchedule 1 three_at_zero
   = Done {| out_gantt :=
               [ {| PID := 1; Start := 0; Stop := 2 |};
                 {| PID := 2; Start := 2; Stop := 4 |};
                 {| PID := 3; Start := 4; Stop := 6 |} ];
             out_schedule :=
               [ Some {| rowID := 1; rowPriority := 0; rowBurst := 24;
                         rowArrival := 0; rowWait := 0; rowTurnaround := 2;
                         rowExit := 2 |};
                 Some {| rowID := 2; rowPriority := 0; rowBurst := 3;
                         rowArrival := 0; rowWait := 2; rowTurnaround := 4;
                         rowExit := 4 |};
                 Some {| rowID := 3; rowPriority := 0; rowBurst := 3;
                         rowArrival := 0; rowWait := 4; rowTurnaround := 6;
                         rowExit := 6 |} ];
             out_aveWait := 2%float;
             out_aveTurnaround := 4%float;
             out_aveThroughput := 0.5%float |}) /\
  ordered_from 0 [ {| PID := 1; Start := 0; Stop := 2 |};
                   {| PID := 2; Start := 2; Stop := 4 |};
                   {| PID := 3; Start := 4; Stop := 6 |} ] /\
  Forall (RR_slice three_at_zero)
    [ {| PID := 1; Start := 0; Stop := 2 |};
      {| PID := 2; Start := 2; Stop := 4 |};
      {| PID := 3; Start := 4; Stop := 6 |} ].
Proof.
  assert (Hfit : pass_fits three_at_zero) by (vm_compute; discriminate).
  split; [exact Hfit|]. split; [vm_compute; reflexivity|].
  apply (RR_chart_in_order 1 three_at_zero
           {| out_gantt :=
                [ {| PID := 1; Start := 0; Stop := 2 |};
                  {| PID := 2; Start := 2; Stop := 4 |};
                  {| PID := 3; Start := 4; Stop := 6 |} ];
              out_schedule :=
                [ Some {| rowID := 1; rowPriority := 0; rowBurst := 24;
                          rowArrival := 0; rowWait := 0; rowTurnaround := 2;
                          rowExit := 2 |};
                  Some {| rowID := 2; rowPriority := 0; rowBurst := 3;
                          rowArrival := 0; rowWait := 2; rowTurnaround := 4;
                          rowExit := 4 |};
                  Some {| rowID := 3; rowPriority := 0; rowBurst := 3;
                          rowArrival := 0; rowWait := 4; rowTurnaround := 6;
                          rowExit := 6 |} ];
              out_aveWait := 2%float;
              out_aveTurnaround := 4%float;
              out_aveThroughput := 0.5%float |} Hfit).
  vm_compute. reflexivity.
Defined.

(** ** Round-robin when every process is there from the start *)




Lemma FCFS_all_at_zero_never_waits_witness :
  (forall p : Process, In p three_at_zero -> ArrivalTime p = 0) /\
  Run_map waits (FCFSSchedule three_at_zero)
  = Done (replicate (length three_at_zero) (Some 0)).
Proof.
  assert (H : forall p : Process, In p three_at_zero -> ArrivalTime p = 0).
  { intros p [<-|[<-|[<-|[]]]]; reflexivity. }
  split; [exact H|]. apply (FCFS_all_at_zero_never_waits three_at_zero H).
Defined.

(** ** Loading the processes *)

Section LoadingFacts.

Variable ParseInt : String.string -> option Z.

Lemma load_row_returns (row : list String.string) (p : Process) :
  load_row ParseInt row = Returned p <-> row_loads ParseInt row p.
Proof.
  unfold load_row, row_loads, field, mustStrToInt. split.
  - destruct row as [|f0 [|f1 [|f2 rest]]]; simpl; try discriminate.
    + destruct (ParseInt f0); discriminate.
    + destruct (ParseInt f0); simpl; [|discriminate].
      destruct (ParseInt f1); discriminate.
    + destruct (ParseInt f0) as [id|] eqn:H0; simpl; [|discriminate].
      destruct (ParseInt f1) as [burst|] eqn:H1; simpl; [|discriminate].
      destruct (ParseInt f2) as [arrival|] eqn:H2; simpl; [|discriminate].
      destruct rest as [|f3 [|f4 rest]]; simpl.
      * intros H. injection H as <-. exists f0, f1, f2, []. auto.
      * destruct (ParseInt f3) as [priority|] eqn:H3; simpl; [|discriminate].
        intros H. injection H as <-. exists f0, f1, f2, [f3]. auto.
      * intros H. injection H as <-.
        exists f0, f1, f2, (f3 :: f4 :: rest). auto.
  - intros (f0 & f1 & f2 & rest & -> & H0 & H1 & H2 & H3). simpl.
    rewrite H0, H1, H2. simpl. destruct p as [id arrival burst priority].
    simpl in *. destruct rest as [|f3 [|f4 rest]]; simpl.
    + now rewrite H3.
    + rewrite H3. reflexivity.
    + now rewrite H3.
Qed.

Lemma load_row_outcomes (row : list String.string) :
  load_row ParseInt row <> ReadError /\
  ((length row < 3)%nat ->
   load_row ParseInt row = Exited \/ load_row ParseInt row = IndexPanic).
Proof.
  unfold load_row, field, mustStrToInt.
  destruct row as [|f0 [|f1 [|f2 rest]]]; simpl.
  - split; [discriminate|auto].
  - destruct (ParseInt f0); simpl; split; try discriminate; auto.
  - destruct (ParseInt f0); simpl; [|split; [discriminate|auto]].
    destruct (ParseInt f1); simpl; split; try discriminate; auto.
  - split; [|lia].
    destruct (ParseInt f0); simpl; [|discriminate].
    destruct (ParseInt f1); simpl; [|discriminate].
    destruct (ParseInt f2); simpl; [|discriminate].
    destruct rest as [|f3 [|f4 rest]]; simpl; try discriminate.
    destruct (ParseInt f3); simpl; discriminate.
Qed.

Lemma load_rows_no_read_error (rows : list (list String.string)) :
  load_rows ParseInt rows <> ReadError.
Proof.
  induction rows as [|row rows IH]; simpl; [discriminate|].
  pose proof (proj1 (load_row_outcomes row)) as Hrow.
  destruct (load_row ParseInt row); simpl; try congruence.
  destruct (load_rows ParseInt rows); simpl; congruence.
Qed.

End LoadingFacts.

(** X15: What [loadProcesses] returns: given the records of the CSV reader, it
    returns a process list exactly when every record has at least three
    fields whose first three parse as integers (and whose fourth parses
    too, when there are exactly four).  The list then has one process for
    each record, in order, with id, burst and arrival time taken from the
    first three fields; the priority is the fourth field of a record of
    exactly four fields and 0 for any other record. *)
Theorem loadProcesses_returns :
  forall (ParseInt : String.string -> option Z)
         (rows : list (list String.string)) (processes : list Process),
    loadProcesses ParseInt (Some rows) = Returned processes <->
    Forall2 (row_loads ParseInt) rows processes.
Proof.
  intros ParseInt rows. simpl.
  induction rows as [|row rows IH]; intros processes; simpl.
  - split.
    + intros H. injection H as <-. constructor.
    + intros H. inversion H. reflexivity.
  - split.
    + destruct (load_row ParseInt row) as [p| | |] eqn:Hrow; simpl;
        try discriminate.
      destruct (load_rows ParseInt rows) as [ps| | |] eqn:Hrows; simpl;
        try discriminate.
      intros H. injection H as <-. constructor.
      * now apply load_row_returns.
      * now apply IH.
    + intros H. inversion H as [|row' p rows' ps Hp Hps]; subst.
      apply load_row_returns in Hp. apply IH in Hps.
      now rewrite Hp, Hps.
Qed.

(** X16: A record with fewer than three fields stops the program: when some
    record of the CSV reader has fewer than three fields, [loadProcesses]
    does not return; the program exits in [mustStrToInt] or panics on the
    missing field. *)
Theorem loadProcesses_short_record :
  forall (ParseInt : String.string -> option Z)
         (rows : list (list String.string)) (row : list String.string),
    In row rows -> (length row < 3)%nat ->
    loadProcesses ParseInt (Some rows) = Exited \/
    loadProcesses ParseInt (Some rows) = IndexPanic.
Proof.
  intros ParseInt rows row Hin Hshort. simpl.
  induction rows as [|r rows IH]; [destruct Hin|]. simpl.
  destruct Hin as [->|Hin].
  - destruct (proj2 (load_row_outcomes ParseInt row) Hshort) as [-> | ->];
      simpl; auto.
  - pose proof (proj1 (load_row_outcomes ParseInt r)) as Hr.
    destruct (load_row ParseInt r); simpl; auto; [|congruence].
    destruct (IH Hin) as [-> | ->]; simpl; auto.
Qed.

Lemma loadProcesses_short_record_witness :
  In [ "2"%string; "3"%string ]
    [ [ "1"%string; "5"%string; "0"%string ]; [ "2"%string; "3"%string ] ] /\
  (length [ "2"%string; "3"%string ] < 3)%nat /\
  (loadProcesses decimal
     (Some [ [ "1"%string; "5"%string; "0"%string ];
             [ "2"%string; "3"%string ] ]) = Exited \/
   loadProcesses decimal
     (Some [ [ "1"%string; "5"%string; "0"%string ];
             [ "2"%string; "3"%string ] ]) = IndexPanic).
Proof.
  assert (Hin : In [ "2"%string; "3"%string ]
                  [ [ "1"%string; "5"%string; "0"%string ];
                    [ "2"%string; "3"%string ] ])
    by (right; left; reflexivity).
  assert (Hshort : (length [ "2"%string; "3"%string ] < 3)%nat)
    by (simpl; lia).
  split; [exact Hin|]. split; [exact Hshort|].
  apply (loadProcesses_short_record decimal
           [ [ "1"%string; "5"%string; "0"%string ];
             [ "2"%string; "3"%string ] ]
           [ "2"%string; "3"%string ] Hin Hshort).
Defined.

(** ** Printing the chart *)

Section PrintingFacts.

Variable Sprint : Z -> String.string.

Lemma padding_negative (n : Z) : Z.quot (8 - n) 2 < 0 <-> 10 <= n.
Proof. split; intros H; Z.to_euclidean_division_equations; lia. Qed.

Lemma gantt_cell_cases (gantt : list TimeSlice) (k : nat) (a : TimeSlice)
  (written : String.string) :
  gantt !! k = Some a ->
  (wide Sprint a /\ gantt_cell Sprint gantt (Z.of_nat k) written = Panic) \/
  (~ wide Sprint a /\
   exists written' : String.string,
     gantt_cell Sprint gantt (Z.of_nat k) written = Done written').
Proof.
  intros Ha. unfold gantt_cell, wide, Repeat.
  rewrite (load_nat _ _ _ Ha). simpl.
  destruct (Z.ltb_spec (Z.quot (8 - len (Sprint (PID a))) 2) 0) as [Hneg|Hpos].
  - left. split; [now apply padding_negative|reflexivity].
  - right. split; [|eexists; reflexivity].
    intros Hwide. apply padding_negative in Hwide. lia.
Qed.

Lemma gantt_cells_loop (gantt : list TimeSlice) :
  forall (m k : nat) (written : String.string),
    (k + m)%nat = length gantt ->
    (Exists (wide Sprint) (drop k gantt) /\
     for_range (upto (Z.of_nat k) m) (gantt_cell Sprint gantt) written
     = Panic) \/
    (~ Exists (wide Sprint) (drop k gantt) /\
     exists written' : String.string,
       for_range (upto (Z.of_nat k) m) (gantt_cell Sprint gantt) written
       = Done written').
Proof.
  induction m as [|m IH]; intros k written Hkm.
  - right. rewrite drop_ge by lia. split; [|eexists; reflexivity].
    intros H. inversion H.
  - destruct (lookup_lt_is_Some_2 gantt k ltac:(lia)) as [a Ha].
    rewrite (drop_S _ _ _ Ha). simpl.
    replace (Z.of_nat k + 1) with (Z.of_nat (S k)) by lia.
    destruct (gantt_cell_cases gantt k a written Ha)
      as [[Hwide ->]|[Hnarrow [w' ->]]]; simpl.
    + left. split; [now constructor|reflexivity].
    + destruct (IH (S k) w' ltac:(lia)) as [[Hex Hrun]|[Hno Hrun]].
      * left. split; [now apply Exists_cons_tl|exact Hrun].
      * right. split; [|exact Hrun].
        intros H. inversion H; subst; contradiction.
Qed.

Lemma gantt_times_loop (gantt : list TimeSlice) (written : String.string) :
  exists written' : String.string,
    for_range (range gantt) (gantt_time Sprint gantt) written = Done written'.
Proof.
  unfold range.
  destruct (for_range_invariant (fun _ _ => True) (gantt_time Sprint gantt)
              (length gantt) 0 written I) as (w & Hw & _).
  - intros j t Hj _.
    destruct (lookup_lt_is_Some_2 gantt j ltac:(lia)) as [a Ha].
    unfold gantt_time. rewrite (load_nat _ _ _ Ha). simpl.
    destruct (Z.of_nat (length gantt) - 1 =? Z.of_nat j);
      eexists; split; auto.
  - exists w. exact Hw.
Qed.

Lemma outputGantt_cases (gantt : list TimeSlice) :
  (Exists (wide Sprint) gantt /\ outputGantt Sprint gantt = Panic) \/
  (~ Exists (wide Sprint) gantt /\
   exists text : String.string, outputGantt Sprint gantt = Done text).
Proof.
  unfold outputGantt, range.
  destruct (gantt_cells_loop gantt (length gantt) 0
              (String.append (String.append "Gantt schedule"%string newline)
                 "|"%string) eq_refl)
    as [[Hex Hrun]|[Hno [w Hrun]]]; rewrite drop_0 in *.
  - left. split; [exact Hex|].
    change (Z.of_nat 0) with 0 in Hrun. now rewrite Hrun.
  - right. split; [exact Hno|].
    change (Z.of_nat 0) with 0 in Hrun. rewrite Hrun. simpl.
    destruct (gantt_times_loop gantt (String.append w newline)) as [w' Hw'].
    unfold range in Hw'. rewrite Hw'. simpl. eexists. reflexivity.
Qed.

End PrintingFacts.

(** X17: When the chart cannot be printed: [outputGantt] panics (in
    [strings.Repeat], on a negative count) exactly when the id of some
    slice is printed with ten characters or more; with shorter ids it
    returns. *)
Theorem outputGantt_panics_on_wide_ids :
  forall (Sprint : Z -> String.string) (gantt : list TimeSlice),
    (outputGantt Sprint gantt = Panic <-> Exists (wide Sprint) gantt) /\
    ((exists text : String.string, outputGantt Sprint gantt = Done text) <->
     ~ Exists (wide Sprint) gantt).
Proof.
  intros Sprint gantt.
  destruct (outputGantt_cases Sprint gantt) as [[Hex Hrun]|[Hno [text Hrun]]];
    rewrite Hrun.
  - split; split; auto.
    + intros [text H]. discriminate.
    + intros H. contradiction.
  - split; split; auto.
    + discriminate.
    + intros H. contradiction.
    + intros _. exists text. reflexivity.
Qed.

Lemma Exists_map_PID (Sprint : Z -> String.string)
  (gantt : list TimeSlice) (processes : list Process) :
  map PID gantt = map ProcessID processes ->
  Exists (wide Sprint) gantt <->
  Exists (fun p => 10 <= len (Sprint (ProcessID p))) processes.
Proof.
  revert processes. induction gantt as [|a gantt IH];
    intros [|p processes] Hmap; simpl in Hmap; try discriminate.
  - split; intros H; inversion H.
  - injection Hmap as Hpid Hrest. specialize (IH processes Hrest).
    split; intros H; inversion H; subst.
    + left. unfold wide in *. now rewrite <- Hpid.
    + right. now apply IH.
    + left. unfold wide. now rewrite Hpid.
    + right. now apply IH.
Qed.

(** X18: The chart of first-come, first-serve cannot be printed for a wide
    process id: whatever the process list, [FCFSSchedule] builds a chart,
    and [outputGantt] panics on it exactly when the id of some listed
    process is printed with ten characters or more. *)
Theorem FCFS_chart_printing_panics :
  forall (Sprint : Z -> String.string) (processes : list Process),
    exists out : Output,
      FCFSSchedule processes = Done out /\
      (outputGantt Sprint (out_gantt out) = Panic <->
       Exists (fun p => 10 <= len (Sprint (ProcessID p))) processes).
Proof.
  intros Sprint processes.
  destruct (FCFS_run_progress processes)
    as (v & Hv & _ & _ & _ & _ & _ & _ & Hpid & _).
  rewrite firstn_all in Hpid.
  exists (report processes v). unfold FCFSSchedule. rewrite Hv.
  split; [reflexivity|]. simpl.
  destruct (outputGantt_cases Sprint (gantt v)) as [[Hex ->]|[Hno [t ->]]].
  - split; [intros _|reflexivity].
    now apply (Exists_map_PID Sprint (gantt v) processes Hpid).
  - split; [discriminate|]. intros H. exfalso. apply Hno.
    now apply (Exists_map_PID Sprint (gantt v) processes Hpid).
Qed.

Example outputGantt_three_slices :
  outputGantt decimal_numeral
    [ {| PID := 1; Start := 0; Stop := 5 |};
      {| PID := 22; Start := 5; Stop := 8 |};
      {| PID := 123456789; Start := 8; Stop := 9 |} ]
  = Done (String.concat ""%string
            [ "Gantt schedule"%string; newline;
              "|   1   |   22   |123456789|"%string; newline;
              "0"%string; tab; "5"%string; tab; "8"%string; tab;
              "9"%string; newline; newline ]).
Proof. vm_compute. reflexivity. Qed.

Example outputGantt_wide_id :
  outputGantt decimal_numeral wide_id = Panic.
Proof. vm_compute. reflexivity. Qed.

Example loadProcesses_three_records :
  loadProcesses decimal
    (Some [ [ "1"%string; "5"%string; "0"%string ];
            [ "2"%string; "3"%string; "1"%string; "7"%string ];
            [ "3"%string; "1"%string; "2"%string; "9"%string;
              "x"%string ] ])
  = Returned
      [ {| ProcessID := 1; ArrivalTime := 0; BurstDuration := 5;
           Priority := 0 |};
        {| ProcessID := 2; ArrivalTime := 1; BurstDuration := 3;
           Priority := 7 |};
        {| ProcessID := 3; ArrivalTime := 2; BurstDuration := 1;
           Priority := 0 |} ].
Proof. vm_compute. reflexivity. Qed.

(** ** The program as a whole *)


